(** * PokePacks: the packing-list derivation engine of [src/App.jsx]

    A shallow embedding of the pure functions of [App.jsx] (date and window
    utilities, weather aggregation, clothing arithmetic, the packing rule
    engine, consolidation and the bag-override layer; grouping, the export
    and print texts, and the handlers that keep the list on screen), followed
    by the properties established about them.

    Conventions of the embedding.
    - A JavaScript number is a [number A]: a finite value of carrier [A], or
      one of [Infinity], [-Infinity], [NaN].  Counts (days, washes,
      quantities) use [A := Z]; temperatures use [A := Q].  Negative zero is
      identified with zero: every use in the source ([> 0], [|| 1], [+])
      treats the two alike.
    - A JavaScript string is a [string]; literals are ASCII except for the
      category ["Pokémon GO"], kept as its UTF-8 bytes.  [<] and [>] on
      strings compare code units, which on ASCII text such as dates is the
      order of [String.compare].
    - [Array.prototype.push] on the accumulator [items] is written as list
      append in program order.
    - [String.prototype.localeCompare] depends on the host's collation; it is
      a parameter [localeCompare] of everything downstream of the sort.
    - A plain object used as a dictionary is the [gmap] of its own
      properties; a read [obj[k]] that finds no own property goes on to
      [Object.prototype], whose property names are listed. *)

From Stdlib Require Import ZArith QArith Qminmax Bool List String Ascii Lia Permutation.
From Stdlib Require Import OrderedTypeEx Sorted.
From stdpp Require Import gmap strings.

Import ListNotations.
Local Open Scope Z_scope.
Local Open Scope list_scope.

(** ** JavaScript numbers *)

Inductive number (A : Type) : Type :=
| Fin (x : A)
| PosInf
| NegInf
| NaN.

Arguments Fin {A} x.
Arguments PosInf {A}.
Arguments NegInf {A}.
Arguments NaN {A}.

(** [Number.isFinite(n) ? n : fallback]. *)
Definition finiteOr {A : Type} (n : number A) (fallback : A) : A :=
  match n with
  | Fin x => x
  | _ => fallback
  end.

(** [a + b] on integer-valued numbers. *)
Definition num_add (a b : number Z) : number Z :=
  match a, b with
  | NaN, _ | _, NaN => NaN
  | PosInf, NegInf | NegInf, PosInf => NaN
  | PosInf, _ | _, PosInf => PosInf
  | NegInf, _ | _, NegInf => NegInf
  | Fin x, Fin y => Fin (x + y)
  end.

(** [a > 0]. *)
Definition num_pos (a : number Z) : bool :=
  match a with
  | Fin x => 0 <? x
  | PosInf => true
  | NegInf | NaN => false
  end.

(** [a || 1]: zero and [NaN] are falsy. *)
Definition num_or_one (a : number Z) : number Z :=
  match a with
  | Fin 0 => Fin 1
  | NaN => Fin 1
  | _ => a
  end.

(** [Math.ceil(a / b)] for integers [a] and [b]; the quotient itself is not
    an integer, so division and rounding are taken together.  Division by
    zero follows IEEE 754. *)
Definition ceil_div (a b : Z) : number Z :=
  if b =? 0 then
    (if 0 <? a then PosInf else if a <? 0 then NegInf else NaN)
  else Fin (- ((- a) / b)).

(** [Math.floor(a / b)] for integers [a] and [b <> 0]. *)
Definition floor_div (a b : Z) : Z := a / b.

(** [Math.ceil(a / 2)]. *)
Definition num_ceil_half (a : number Z) : number Z :=
  match a with
  | Fin x => ceil_div x 2
  | _ => a
  end.

(** [Math.max(a, b)] and [Math.min(a, b)]. *)
Definition num_max (a b : number Z) : number Z :=
  match a, b with
  | NaN, _ | _, NaN => NaN
  | PosInf, _ | _, PosInf => PosInf
  | NegInf, x | x, NegInf => x
  | Fin x, Fin y => Fin (Z.max x y)
  end.

Definition num_min (a b : number Z) : number Z :=
  match a, b with
  | NaN, _ | _, NaN => NaN
  | NegInf, _ | _, NegInf => NegInf
  | PosInf, x | x, PosInf => x
  | Fin x, Fin y => Fin (Z.min x y)
  end.

(** ** Calendar dates: the part of [Date] the source relies on

    [new Date(iso + "T00:00:00Z").getTime()] following ECMAScript's
    [DayFromYear], [MakeDay] and [MakeDate].  Strings of the shape
    [YYYY-MM-DDT00:00:00Z] naming a day of the proleptic Gregorian calendar
    get their time value; every other string is read as an Invalid Date
    (time value [NaN]).  Hosts differ on strings outside the format, and the
    statements about day counts below are about valid dates only. *)

Definition msPerDay : Z := 1000 * 60 * 60 * 24.

Definition DayFromYear (y : Z) : Z :=
  365 * (y - 1970) + (y - 1969) / 4 - (y - 1901) / 100 + (y - 1601) / 400.

Definition InLeapYear (y : Z) : bool :=
  ((y mod 4 =? 0) && negb (y mod 100 =? 0)) || (y mod 400 =? 0).

Definition DaysInMonth (y m : Z) : Z :=
  if m =? 2 then (if InLeapYear y then 29 else 28)
  else if (m =? 4) || (m =? 6) || (m =? 9) || (m =? 11) then 30
  else 31.

(** Days of the year before the first of month [m] (1..12). *)
Definition DaysBeforeMonth (y m : Z) : Z :=
  nth (Z.to_nat (m - 1)) [0; 31; 59; 90; 120; 151; 181; 212; 243; 273; 304; 334] 0
  + (if InLeapYear y && (2 <? m) then 1 else 0).

Definition validYMD (y m d : Z) : bool :=
  (1 <=? m) && (m <=? 12) && (1 <=? d) && (d <=? DaysInMonth y m).

(** Day number since the epoch of a calendar date. *)
Definition MakeDay (y m d : Z) : Z :=
  DayFromYear y + DaysBeforeMonth y m + (d - 1).

Definition digit (c : ascii) : option Z :=
  let n := Z.of_N (N_of_ascii c) in
  if (48 <=? n) && (n <=? 57) then Some (n - 48) else None.

Definition digits2 (a b : ascii) : option Z :=
  match digit a, digit b with
  | Some x, Some y => Some (10 * x + y)
  | _, _ => None
  end.

Definition digits4 (a b c d : ascii) : option Z :=
  match digits2 a b, digits2 c d with
  | Some x, Some y => Some (100 * x + y)
  | _, _ => None
  end.

(** The calendar date written by a ten-character [YYYY-MM-DD] prefix,
    together with what follows it. *)
Definition splitYMD (s : string) : option (Z * Z * Z * string) :=
  match s with
  | String y1 (String y2 (String y3 (String y4 (String h1
      (String m1 (String m2 (String h2 (String d1 (String d2 rest))))))))) =>
      if Ascii.eqb h1 "-" && Ascii.eqb h2 "-" then
        match digits4 y1 y2 y3 y4, digits2 m1 m2, digits2 d1 d2 with
        | Some y, Some m, Some d => Some (y, m, d, rest)
        | _, _, _ => None
        end
      else None
  | _ => None
  end.

(** [new Date(s).getTime()]. *)
Definition Date_getTime (s : string) : number Z :=
  match splitYMD s with
  | Some (y, m, d, rest) =>
      if validYMD y m d && String.eqb rest "T00:00:00Z"
      then Fin (MakeDay y m d * msPerDay)
      else NaN
  | None => NaN
  end.

(** ** Date and window utilities *)

(** [!s] on a string: only the empty string is falsy. *)
Definition truthy (s : string) : bool := negb (String.eqb s "").

(** [parseISODateToUTC]: [None] is [null]; a [Date] is represented by its
    time value. *)
Definition parseISODateToUTC (iso : string) : option (number Z) :=
  if negb (truthy iso) then None
  else Some (Date_getTime (iso ++ "T00:00:00Z")%string).

(** [tripDaysInclusive].  A [Date] object is always truthy, also an invalid
    one; with a [NaN] time value [ms] and [daysDiff] are [NaN] and
    [daysDiff >= 0] is false.  Every path returns a finite integer. *)
Definition tripDaysInclusive (startISO endISO : string) : Z :=
  match parseISODateToUTC startISO, parseISODateToUTC endISO with
  | Some start, Some end_ =>
      match end_, start with
      | Fin e, Fin s =>
          let ms := e - s in
          let daysDiff := floor_div ms (1000 * 60 * 60 * 24) in
          if 0 <=? daysDiff then daysDiff + 1 else 0
      | _, _ => 0
      end
  | _, _ => 0
  end.

(** [safeParseNumber], on the numeric reading [Number(v)] of its argument. *)
Definition safeParseNumber {A : Type} (n : number A) : option A :=
  match n with
  | Fin x => Some x
  | _ => None
  end.

(** A trip segment, restricted to the fields the engine reads.  [tempMin]
    and [tempMax] hold the numeric reading [Number(v)] of the form field. *)
Record Segment : Type := mkSegment {
  startDate : string;
  endDate : string;
  tempMin : number Q;
  tempMax : number Q;
  rainLikely : bool;
  hotSunLikely : bool;
  humidLikely : bool
}.

Record TripWindow : Type := mkWindow {
  startISO : string;
  endISO : string
}.

(** [arr.reduce(f, arr[0])]. *)
Definition reduce_from_head {A : Type} (f : A -> A -> A) (l : list A) (dflt : A) : A :=
  fold_left f l (hd dflt l).

(** [computeOverallTripWindow]; [<] and [>] on strings are lexicographic. *)
Definition computeOverallTripWindow (segments : list Segment) : TripWindow :=
  let starts := List.filter truthy (map startDate segments) in
  let ends := List.filter truthy (map endDate segments) in
  if (length starts =? 0)%nat || (length ends =? 0)%nat then
    {| startISO := ""; endISO := "" |}
  else
    let startISO := reduce_from_head (fun min d => if String.ltb d min then d else min) starts "" in
    let endISO := reduce_from_head (fun max d => if String.ltb max d then d else max) ends "" in
    {| startISO := startISO; endISO := endISO |}.

(** ** Weather aggregator *)

Record WeatherSummary : Type := mkWeather {
  overallMin : option Q;
  overallMax : option Q;
  anyRain : bool;
  anySun : bool;
  anyHumid : bool
}.

(** One iteration of the [for (const s of segments)] loop. *)
Definition weatherStep (w : WeatherSummary) (s : Segment) : WeatherSummary :=
  let minT := safeParseNumber (tempMin s) in
  let maxT := safeParseNumber (tempMax s) in
  {| overallMin :=
       match minT with
       | Some m => match overallMin w with None => Some m | Some o => Some (Qmin o m) end
       | None => overallMin w
       end;
     overallMax :=
       match maxT with
       | Some m => match overallMax w with None => Some m | Some o => Some (Qmax o m) end
       | None => overallMax w
       end;
     anyRain := if rainLikely s then true else anyRain w;
     anySun := if hotSunLikely s then true else anySun w;
     anyHumid := if humidLikely s then true else anyHumid w |}.

Definition computeWeatherSummary (segments : list Segment) : WeatherSummary :=
  fold_left weatherStep segments
    {| overallMin := None; overallMax := None;
       anyRain := false; anySun := false; anyHumid := false |}.

(** ** Clothing-quantity calculator *)

Record ClothesMath : Type := mkMath {
  days : Z;
  washCount : Z;
  cycles : Z;
  baseSets : number Z;
  setsNeeded : number Z
}.

(** [computeClothesMath]; [washes] is the numeric reading [Number(washes)].
    [washCount] and [cycles] are finite on every path. *)
Definition computeClothesMath (startISO endISO : string) (washes : number Z)
    (includeSpareSet : bool) : ClothesMath :=
  let days := tripDaysInclusive startISO endISO in
  let washCountRaw := washes in
  let washCount := finiteOr washCountRaw 0 in
  let cycles := washCount + 1 in
  let baseSets := if 0 <? days then ceil_div days cycles else Fin 0 in
  let setsNeeded := if includeSpareSet then num_add baseSets (Fin 1) else baseSets in
  {| days := days; washCount := washCount; cycles := cycles;
     baseSets := baseSets; setsNeeded := setsNeeded |}.

(** ** Packing items *)

Record PackingItem : Type := mkItem {
  category : string;
  name : string;
  quantity : number Z;
  bag : string
}.

(** [packItem]; every call site of the source passes all four arguments. *)
Definition packItem (category name : string) (quantity : number Z) (bag : string)
    : PackingItem :=
  {| category := category; name := name; quantity := quantity; bag := bag |}.

(** [{ ...it, quantity: q }]. *)
Definition withQuantity (it : PackingItem) (q : number Z) : PackingItem :=
  {| category := category it; name := name it; quantity := q; bag := bag it |}.

(** The key under which [uniqItemsByBag] files an item. *)
Definition mergeKey (it : PackingItem) : string :=
  (bag it ++ "__" ++ category it ++ "__" ++ name it)%string.

(** ** Item consolidator *)

(** A JavaScript [Map] with string keys: entries in insertion order. *)
Definition JsMap (V : Type) : Type := list (string * V).

Fixpoint Map_get {V : Type} (key : string) (m : JsMap V) : option V :=
  match m with
  | [] => None
  | (k, v) :: rest => if String.eqb k key then Some v else Map_get key rest
  end.

(** [map.set(key, v)]: an existing key keeps its position. *)
Fixpoint Map_set {V : Type} (key : string) (v : V) (m : JsMap V) : JsMap V :=
  match m with
  | [] => [(key, v)]
  | (k, w) :: rest =>
      if String.eqb k key then (k, v) :: rest else (k, w) :: Map_set key v rest
  end.

Definition Map_values {V : Type} (m : JsMap V) : list V := map snd m.

(** One iteration of the loop of [uniqItemsByBag].  An object is always
    truthy, so [if (existing)] tests presence; [it.quantity ?? 1] is
    [it.quantity], the field being always set by [packItem]. *)
Definition uniqStep (m : JsMap PackingItem) (it : PackingItem) : JsMap PackingItem :=
  let key := mergeKey it in
  match Map_get key m with
  | Some existing =>
      Map_set key
        (withQuantity existing
           (num_add (num_or_one (quantity existing)) (num_or_one (quantity it)))) m
  | None => Map_set key (withQuantity it (quantity it)) m
  end.

Definition uniqItemsByBag (items : list PackingItem) : list PackingItem :=
  Map_values (fold_left uniqStep items []).

(** ** Packing rule engine *)

(** [addWeatherClothes]: returns the accumulator after its pushes. *)
Definition addWeatherClothes (items : list PackingItem) (minT maxT : option Q)
    (rainLikely hotSunLikely : bool) : list PackingItem :=
  let items := items ++
    match minT with
    | Some minT =>
        (if Qle_bool minT 5 then
           [packItem "Clothes" "Warm jacket" (Fin 1) "checked";
            packItem "Clothes" "Warm layer (jumper or hoodie)" (Fin 1) "checked"]
         else if Qle_bool minT 12 then
           [packItem "Clothes" "Light jacket" (Fin 1) "checked";
            packItem "Clothes" "Warm layer (jumper or hoodie)" (Fin 1) "checked"]
         else if Qle_bool minT 16 then
           [packItem "Clothes" "Light layer (jumper or cardigan)" (Fin 1) "checked"]
         else [])
        ++
        (if Qle_bool minT 10 then
           [packItem "Clothes" "Beanie" (Fin 1) "checked";
            packItem "Clothes" "Scarf" (Fin 1) "checked";
            packItem "Clothes" "Gloves" (Fin 1) "checked"]
         else [])
    | None => []
    end in
  let items := items ++
    (if rainLikely then [packItem "Clothes" "Umbrella or rain jacket" (Fin 1) "checked"] else []) in
  let items := items ++
    (if hotSunLikely then [packItem "Clothes" "Sunglasses" (Fin 1) "checked"] else []) in
  let items := items ++
    match maxT with
    | Some maxT =>
        if Qle_bool 32 maxT then [packItem "Clothes" "Hat" (Fin 1) "checked"]
        else if Qle_bool 28 maxT then [packItem "Clothes" "Hat (optional)" (Fin 1) "checked"]
        else []
    | None => []
    end in
  items.

(** The argument of [generatePackingList]. *)
Record State : Type := mkState {
  segments : list Segment;
  washes : number Z;
  includeSpareSet : bool;
  pokemonGoNeeded : bool;
  altAccount : bool;
  eggWalker : bool;
  tradeList : bool;
  partnerPokemon : bool;
  isInternational : bool;
  isJapanTrip : bool;
  bringTablet : bool;
  bringWorkLaptop : bool
}.

(** The body of the [if (maths.days > 0)] block: the items it pushes, in
    order. *)
Definition clothesBlock (maths : ClothesMath) (weather : WeatherSummary)
    : list PackingItem :=
  let items :=
    [packItem "Clothes" "Underwear" (setsNeeded maths) "checked";
     packItem "Clothes" "Socks" (setsNeeded maths) "checked";
     packItem "Clothes" "Tops" (setsNeeded maths) "checked"] in
  let needsJeans :=
    match overallMin weather with Some m => Qle_bool m 18 | None => false end in
  let needsShorts :=
    match overallMax weather with Some m => Qle_bool 24 m | None => false end in
  let items := items ++
    (if needsJeans then [packItem "Clothes" "Jeans (or other long pants)" (Fin 1) "checked"] else []) in
  let items := items ++
    (if needsShorts then [packItem "Clothes" "Shorts" (Fin 2) "checked"] else []) in
  let items := items ++
    (if negb needsJeans && negb needsShorts then
       [packItem "Clothes" "Bottoms"
          (num_max (Fin 1) (num_ceil_half (setsNeeded maths))) "checked"]
     else []) in
  let items := items ++
    (if anyHumid weather &&
        match overallMax weather with Some m => Qle_bool 26 m | None => false end
     then
       let singlets := num_max (Fin 1) (num_min (Fin 2) (setsNeeded maths)) in
       [packItem "Clothes" "Singlet" singlets "checked"]
     else []) in
  let items := items ++ [packItem "Clothes" "Sleepwear" (Fin 1) "checked"] in
  addWeatherClothes items (overallMin weather) (overallMax weather)
    (anyRain weather) (anySun weather).

(** The accumulator [items] of [generatePackingList] just before it is
    cleaned, merged and sorted. *)
Definition rawItems (state : State) : list PackingItem :=
  let w := computeOverallTripWindow (segments state) in
  let maths := computeClothesMath (startISO w) (endISO w) (washes state)
                 (includeSpareSet state) in
  let weather := computeWeatherSummary (segments state) in
  let items := [] in
  let items := items ++
    [packItem "Tech" "Main iPhone" (Fin 1) "carryOn";
     packItem "Tech" "Apple Watch" (Fin 1) "carryOn";
     packItem "Tech" "AirPods" (Fin 1) "carryOn";
     packItem "Tech" "Viture neckband" (Fin 1) "carryOn";
     packItem "Tech" "Viture glasses" (Fin 1) "carryOn"] in
  let items := items ++
    (if bringTablet state then [packItem "Tech" "Tablet" (Fin 1) "carryOn"] else []) in
  let items := items ++
    (if bringWorkLaptop state then [packItem "Tech" "Work laptop" (Fin 1) "carryOn"] else []) in
  let items := items ++
    [packItem "Tech" "iPhone charger" (Fin 1) "checked";
     packItem "Tech" "iPhone charging cable" (Fin 1) "carryOn";
     packItem "Tech" "Apple Watch charger" (Fin 1) "checked"] in
  let items := items ++
    (if bringTablet state then
       [packItem "Tech" "Tablet charger" (Fin 1) "checked";
        packItem "Tech" "Tablet charging cable" (Fin 1) "checked"]
     else []) in
  let items := items ++
    (if bringWorkLaptop state then [packItem "Tech" "Laptop charger" (Fin 1) "checked"] else []) in
  let items := items ++
    (if isInternational state then
       [packItem "Tech" "Travel adapter" (Fin 1) "checked";
        packItem "Tech" "Chromecast" (Fin 1) "checked"]
     else []) in
  let items := items ++
    (if isInternational state then
       [packItem "Documents" "Passport" (Fin 1) "carryOn";
        packItem "Money" "Currency for destination (if you have any)" (Fin 1) "carryOn";
        packItem "Money" "Money pouch" (Fin 1) "carryOn";
        packItem "Documents" "Australian customs form (blank)" (Fin 1) "carryOn";
        packItem "Documents" "Pen" (Fin 1) "carryOn"]
     else []) in
  let items := items ++
    (if isJapanTrip state then [packItem "Misc" "Eki stamp book" (Fin 1) "carryOn"] else []) in
  let items := items ++ [packItem "Misc" "Pillow" (Fin 1) "checked"] in
  let items := items ++
    [packItem "Toiletries" "Toothbrush" (Fin 1) "checked";
     packItem "Toiletries" "Toothpaste" (Fin 1) "checked";
     packItem "Toiletries" "Deodorant" (Fin 1) "checked";
     packItem "Toiletries" "Face masks" (Fin 1) "carryOn";
     packItem "Toiletries" "Travel hand sanitiser (100ml or less)" (Fin 1) "carryOn";
     packItem "Toiletries" "Body wash" (Fin 1) "checked";
     packItem "Toiletries" "Beard wash" (Fin 1) "checked";
     packItem "Toiletries" "Vitamins" (Fin 1) "checked";
     packItem "Toiletries" "Paracetamol" (Fin 1) "carryOn";
     packItem "Toiletries" "Band aids" (Fin 1) "checked";
     packItem "Toiletries" "Lip balm" (Fin 1) "carryOn";
     packItem "Toiletries" "Condoms" (Fin 1) "checked"] in
  let items := items ++
    (if 0 <? days maths then clothesBlock maths weather else []) in
  let items := items ++
    (if pokemonGoNeeded state then [packItem "Clothes" "Hat" (Fin 1) "checked"] else []) in
  let items := items ++
    (if pokemonGoNeeded state then
       [packItem "Pokémon GO" "Power bank" (Fin 1) "carryOn";
        packItem "Pokémon GO" "Pokémon GO Plus+" (Fin 1) "carryOn";
        packItem "Pokémon GO" "Sunscreen" (Fin 1) "checked";
        packItem "Pokémon GO" "Satchel" (Fin 1) "checked"]
       ++
       (if tradeList state then
          [packItem "Pokémon GO" "Printed trade list" (Fin 1) "checked";
           packItem "Pokémon GO" "Lanyard" (Fin 1) "checked"]
        else [])
       ++
       (if altAccount state then
          [packItem "Pokémon GO" "Alt phone" (Fin 1) "carryOn";
           packItem "Pokémon GO" "Alt phone charging cable" (Fin 1) "checked"]
        else [])
       ++
       (if eggWalker state then
          [packItem "Pokémon GO" "Egg walker" (Fin 1) "carryOn";
           packItem "Pokémon GO" "iPhone (for egg walker)" (Fin 2) "carryOn";
           packItem "Pokémon GO" "iPhone charging cable (for egg walker)" (Fin 2) "checked"]
        else [])
       ++
       (if partnerPokemon state then
          [packItem "Pokémon GO" "Partner Pokémon plush" (Fin 1) "checked"]
        else [])
     else []) in
  items.

(** [items.filter((x) => (x.quantity ?? 1) > 0)]. *)
Definition cleaned (items : list PackingItem) : list PackingItem :=
  List.filter (fun x => num_pos (quantity x)) items.

Section Sorting.

(** [a.localeCompare(b)]: negative, zero or positive. *)
Variable localeCompare : string -> string -> Z.

(** The comparator given to [sort]. *)
Definition compareItems (a b : PackingItem) : Z :=
  if negb (String.eqb (bag a) (bag b)) then localeCompare (bag a) (bag b)
  else if negb (String.eqb (category a) (category b))
       then localeCompare (category a) (category b)
  else localeCompare (name a) (name b).

(** [Array.prototype.sort] is stable: an element goes before the first
    element of the sorted rest that it does not exceed.  For a consistent
    comparator every stable sort returns the list this one returns. *)
Fixpoint insertSorted (x : PackingItem) (l : list PackingItem) : list PackingItem :=
  match l with
  | [] => [x]
  | y :: rest =>
      if 0 <? compareItems x y then y :: insertSorted x rest else x :: y :: rest
  end.

Fixpoint sortItems (l : list PackingItem) : list PackingItem :=
  match l with
  | [] => []
  | x :: rest => insertSorted x (sortItems rest)
  end.

(** The last two statements of [generatePackingList], on any list. *)
Definition consolidate (items : list PackingItem) : list PackingItem :=
  sortItems (uniqItemsByBag (cleaned items)).

(** [generatePackingList]: the pushes, then cleaning, merging and sorting. *)
Definition generatePackingList (state : State) : list PackingItem :=
  consolidate (rawItems state).

End Sorting.

(** ** Plain objects

    [bagOverrides] and [checkedState] are plain objects: [{}], a spread of
    one, or the result of [JSON.parse].  Reading [obj[k]] looks first at the
    own properties, here a [gmap], and then at [Object.prototype]. *)

(** The property names of [Object.prototype]. *)
Definition objectPrototypeNames : list string :=
  ["constructor"; "hasOwnProperty"; "isPrototypeOf"; "propertyIsEnumerable";
   "toLocaleString"; "toString"; "valueOf"; "__proto__";
   "__defineGetter__"; "__defineSetter__"; "__lookupGetter__";
   "__lookupSetter__"]%string.

Definition inheritsProperty (k : string) : bool :=
  existsb (String.eqb k) objectPrototypeNames.

(** What [obj[k]] evaluates to: an own value, the value of the property of
    [Object.prototype] named [k] (the prototype object itself for
    ["__proto__"], a built-in function for the others), or [undefined]. *)
Inductive propertyValue (V : Type) : Type :=
| Own (v : V)
| Inherited (property : string)
| Undefined.

Arguments Own {V} v.
Arguments Inherited {V} property.
Arguments Undefined {V}.

(** [obj[k]]. *)
Definition getProperty {V : Type} (obj : gmap string V) (k : string)
    : propertyValue V :=
  match obj !! k with
  | Some v => Own v
  | None => if inheritsProperty k then Inherited k else Undefined
  end.

(** ** Bag-override layer *)

(** The bag of an item once overrides may have been applied to it: a string,
    or the inherited object or function that [overrides[k]] evaluated to. *)
Inductive bagValue : Type :=
| BagString (s : string)
| BagInherited (property : string).

(** An item of the list on screen: a [PackingItem] whose bag is any
    [bagValue]. *)
Record ListedItem : Type := mkListed {
  listedCategory : string;
  listedName : string;
  listedQuantity : number Z;
  listedBag : bagValue
}.

(** An item of the engine, seen as an item of the list on screen. *)
Definition listed (it : PackingItem) : ListedItem :=
  {| listedCategory := category it; listedName := name it;
     listedQuantity := quantity it; listedBag := BagString (bag it) |}.

(** [{ ...it, bag: b }]. *)
Definition withBag (it : ListedItem) (b : bagValue) : ListedItem :=
  {| listedCategory := listedCategory it; listedName := listedName it;
     listedQuantity := listedQuantity it; listedBag := b |}.

(** [stableKey]: the key of an item that ignores its bag. *)
Definition stableKey (item : ListedItem) : string :=
  (listedCategory item ++ "__" ++ listedName item)%string.

(** The arrow function of [applyOverrides].  An own entry that is the empty
    string is falsy; an inherited object or function is truthy and becomes
    the bag. *)
Definition overrideItem (overrides : gmap string string) (it : ListedItem)
    : ListedItem :=
  let k := stableKey it in
  let forced := getProperty overrides k in
  match forced with
  | Own b => if truthy b then withBag it (BagString b) else it
  | Inherited p => withBag it (BagInherited p)
  | Undefined => it
  end.

(** [applyOverrides]. *)
Definition applyOverrides (items : list ListedItem) (overrides : gmap string string)
    : list ListedItem :=
  map (overrideItem overrides) items.

(** Whether an item's key is a property name of [Object.prototype]. *)
Definition keyInherited (it : ListedItem) : bool :=
  inheritsProperty (stableKey it).

(** ** Vocabulary of the statements *)

(** The calendar date a string denotes when it is a valid [YYYY-MM-DD]. *)
Definition civil (iso : string) : option (Z * Z * Z) :=
  match splitYMD iso with
  | Some (y, m, d, rest) =>
      if String.eqb rest "" && validYMD y m d then Some (y, m, d) else None
  | None => None
  end.

(** Chronological order on calendar dates. *)
Definition dateBefore (a b : Z * Z * Z) : Prop :=
  let '(y1, m1, d1) := a in
  let '(y2, m2, d2) := b in
  y1 < y2 \/ (y1 = y2 /\ (m1 < m2 \/ (m1 = m2 /\ d1 < d2))).

(** [Number.isFinite]. *)
Definition isFinite {A : Type} (n : number A) : bool :=
  match n with
  | Fin _ => true
  | _ => false
  end.

(** A wash count that is negative, or that is not a number at all. *)
Definition negativeOrNonNumeric (w : number Z) : Prop :=
  match w with
  | Fin z => z < 0
  | NegInf => True
  | NaN => True
  | PosInf => False
  end.

(** A number that is a non-negative integer. *)
Definition nonNegInteger (n : number Z) : Prop :=
  exists z, n = Fin z /\ 0 <= z.

(** What treating such a wash count as zero would mean for the result of
    [computeClothesMath]. *)
Definition washesTreatedAsZero (startISO endISO : string) (w : number Z)
    (spare : bool) : Prop :=
  let m := computeClothesMath startISO endISO w spare in
  washCount m = 0 /\ cycles m = 1 /\ 0 <= cycles m /\
  nonNegInteger (baseSets m) /\ nonNegInteger (setsNeeded m).

(** A wash count the calculator is designed for: a non-negative integer, or
    a value that is not finite. *)
Definition supportedWashes (w : number Z) : Prop :=
  match w with
  | Fin z => 0 <= z
  | _ => True
  end.

(** The time value, in milliseconds since the epoch, of midnight UTC of a
    calendar date. *)
Definition timeOf (c : Z * Z * Z) : Z :=
  let '(y, m, d) := c in MakeDay y m d * msPerDay.

(** The sets needed for [D] days and [W >= 0] washes, in closed form. *)
Definition setsFor (D W : Z) (spare : bool) : Z :=
  (if 0 <? D then (D + (W + 1) - 1) / (W + 1) else 0) + (if spare then 1 else 0).

(** The dates [computeOverallTripWindow] folds over. *)
Definition nonEmptyStarts (segments : list Segment) : list string :=
  List.filter truthy (map startDate segments).

Definition nonEmptyEnds (segments : list Segment) : list string :=
  List.filter truthy (map endDate segments).

(** Least and greatest element of a list of strings, lexicographically. *)
Definition isLexMin (x : string) (l : list string) : Prop :=
  In x l /\ forall d, In d l -> String.leb x d = true.

Definition isLexMax (x : string) (l : list string) : Prop :=
  In x l /\ forall d, In d l -> String.leb d x = true.

(** Some segment has some date set. *)
Definition anyDateSet (segments : list Segment) : Prop :=
  exists s, In s segments /\ (truthy (startDate s) = true \/ truthy (endDate s) = true).

Definition emptyWindow : TripWindow := {| startISO := ""; endISO := "" |}.

(** The keys of a [Map], in insertion order. *)
Definition Map_keys {V : Type} (m : JsMap V) : list string := map fst m.

(** A string without the underscore the keys are joined with. *)
Fixpoint plain (s : string) : bool :=
  match s with
  | EmptyString => true
  | String c rest => negb (Ascii.eqb c "_") && plain rest
  end.

(** Two items with the same bag, category and name. *)
Definition sameTriple (a b : PackingItem) : Prop :=
  bag a = bag b /\ category a = category b /\ name a = name b.

(** The list holds an item of this category and name in this bag. *)
Definition hasItem (l : list PackingItem) (cat nm bg : string) : Prop :=
  exists o, In o l /\ category o = cat /\ name o = nm /\ bag o = bg.

(** The list holds an item of this name. *)
Definition hasName (l : list PackingItem) (nm : string) : Prop :=
  exists o, In o l /\ name o = nm.

(** [a] may stand before [b] in a list sorted by [compareItems]. *)
Definition itemOrdered (localeCompare : string -> string -> Z) (a b : PackingItem) : Prop :=
  (0 <? compareItems localeCompare a b) = false.

(** A collation for examples: code-unit order. *)
Definition codeUnitCompare (a b : string) : Z :=
  match String.compare a b with
  | Lt => -1
  | Eq => 0
  | Gt => 1
  end.

(** An existing entry after a duplicate [it] is merged into it. *)
Definition mergedInto (existing it : PackingItem) : PackingItem :=
  withQuantity existing
    (num_add (num_or_one (quantity existing)) (num_or_one (quantity it))).

(** Every entry is filed under the key of its value. *)
Definition keyed (e : string * PackingItem) : Prop := fst e = mergeKey (snd e).

(** An item whose bag and category are free of underscores. *)
Definition plainItem (it : PackingItem) : bool :=
  plain (bag it) && plain (category it).

(** The clothing arithmetic and the weather summary [generatePackingList]
    computes from its argument. *)
Definition mathsOf (state : State) : ClothesMath :=
  let w := computeOverallTripWindow (segments state) in
  computeClothesMath (startISO w) (endISO w) (washes state) (includeSpareSet state).

Definition weatherOf (state : State) : WeatherSummary :=
  computeWeatherSummary (segments state).

(** A state with the Japan flag set on a trip that is not international. *)
Definition japanNotInternational : State :=
  {| segments := [];
     washes := Fin 0;
     includeSpareSet := false;
     pokemonGoNeeded := false;
     altAccount := false;
     eggWalker := false;
     tradeList := false;
     partnerPokemon := false;
     isInternational := false;
     isJapanTrip := true;
     bringTablet := false;
     bringWorkLaptop := false |}.

(** A five-day trip to a place between 4 and 30 degrees, with rain. *)
Definition rainyTrip : State :=
  {| segments := [mkSegment "2024-03-01" "2024-03-05" (Fin 4%Q) (Fin 30%Q) true false false];
     washes := Fin 1;
     includeSpareSet := true;
     pokemonGoNeeded := false;
     altAccount := false;
     eggWalker := false;
     tradeList := false;
     partnerPokemon := false;
     isInternational := false;
     isJapanTrip := false;
     bringTablet := false;
     bringWorkLaptop := false |}.

(** ** Further functions of the source *)

(** [a >= b] and [a <= b] on strings: the negations of [<] and [>]. *)
Definition string_geb (a b : string) : bool := negb (String.ltb a b).
Definition string_lebJS (a b : string) : bool := negb (String.ltb b a).

(** [dateInSegmentExclusive]: used for the daily rows. *)
Definition dateInSegmentExclusive (dayISO startISO endISO : string) : bool :=
  if negb (truthy dayISO) || negb (truthy startISO) || negb (truthy endISO) then true
  else string_geb dayISO startISO && String.ltb dayISO endISO.

(** [dateInSegmentInclusive]: used for the hourly rows. *)
Definition dateInSegmentInclusive (dayISO startISO endISO : string) : bool :=
  if negb (truthy dayISO) || negb (truthy startISO) || negb (truthy endISO) then true
  else string_geb dayISO startISO && string_lebJS dayISO endISO.

(** The finite minimum and maximum temperatures of the segments, in order. *)
Definition finiteMins (segments : list Segment) : list Q :=
  flat_map (fun s => match safeParseNumber (tempMin s) with Some t => [t] | None => [] end)
    segments.

Definition finiteMaxs (segments : list Segment) : list Q :=
  flat_map (fun s => match safeParseNumber (tempMax s) with Some t => [t] | None => [] end)
    segments.

(** The items of a list filed under a key, and the total of their
    quantities, added in list order. *)
Definition withKey (k : string) (l : list PackingItem) : list PackingItem :=
  List.filter (fun it => String.eqb (mergeKey it) k) l.

Definition keyTotal (k : string) (l : list PackingItem) : number Z :=
  fold_left num_add (map quantity (withKey k l)) (Fin 0).

(** What the map of [uniqItemsByBag] holds once the items [seen] have been
    processed. *)
Definition totalsOf (m : JsMap PackingItem) (seen : list PackingItem) : Prop :=
  Forall keyed m /\ List.NoDup (Map_keys m) /\
  (forall k v, In (k, v) m ->
     quantity v = keyTotal k seen /\ num_pos (quantity v) = true) /\
  (forall k, ~ In k (Map_keys m) -> withKey k seen = []).

(** ** The state of the application around the list

    The React state the handlers of [App] write, passed explicitly, together
    with the two [localStorage] entries they keep ([None]: no entry).  The
    stored values are the maps themselves; their JSON text is not modelled. *)

Record AppState : Type := mkApp {
  bagOverrides : gmap string string;
  generated : list ListedItem;
  checkedState : gmap string bool;
  isPackingMode : bool;
  storedChecked : option (gmap string bool);
  storedOverrides : option (gmap string string)
}.

(** [onGenerate], given the engine's argument built from the form. *)
Definition onGenerate (localeCompare : string -> string -> Z) (state : State)
    (app : AppState) : AppState :=
  let baseItems := generatePackingList localeCompare state in
  let withOverrides := applyOverrides (map listed baseItems) (bagOverrides app) in
  {| bagOverrides := bagOverrides app;
     generated := withOverrides;
     checkedState := ∅;
     isPackingMode := true;
     storedChecked := None;
     storedOverrides := storedOverrides app |}.

(** [!!checkedState[id]]; the same truth value decides [!prev[id]] in
    [toggleChecked]. *)
Definition isChecked (checked : gmap string bool) (id : string) : bool :=
  match getProperty checked id with
  | Own b => b
  | Inherited _ => true
  | Undefined => false
  end.

(** [toggleChecked]. *)
Definition toggleChecked (id : string) (app : AppState) : AppState :=
  let next := <[id := negb (isChecked (checkedState app) id)]> (checkedState app) in
  {| bagOverrides := bagOverrides app;
     generated := generated app;
     checkedState := next;
     isPackingMode := isPackingMode app;
     storedChecked := Some next;
     storedOverrides := storedOverrides app |}.

(** [changeBagOverride]; [bag] is the value of the bag selector, a string. *)
Definition changeBagOverride (k bag : string) (app : AppState) : AppState :=
  let next := <[k := bag]> (bagOverrides app) in
  {| bagOverrides := next;
     generated :=
       map (fun it =>
              let itKey := stableKey it in
              if String.eqb itKey k then withBag it (BagString bag) else it)
         (generated app);
     checkedState := ∅;
     isPackingMode := isPackingMode app;
     storedChecked := None;
     storedOverrides := Some next |}.

(** [packedCount]: [Object.values(checkedState).filter(Boolean).length]. *)
Definition packedCount (checked : gmap string bool) : nat :=
  length (List.filter (fun b : bool => b) (map snd (map_to_list checked))).

(** The list on screen is the engine's list for [state] under the current
    overrides. *)
Definition inSync (localeCompare : string -> string -> Z) (state : State)
    (app : AppState) : Prop :=
  generated app
  = applyOverrides (map listed (generatePackingList localeCompare state)) (bagOverrides app).

(** ** Grouping and export *)

(** [map.has(key)]. *)
Definition Map_has {V : Type} (key : string) (m : JsMap V) : bool :=
  match Map_get key m with
  | Some _ => true
  | None => false
  end.

(** One iteration of the loop of [groupByCategory].  The array held by the
    map is reached only through the map, so pushing onto it is written as
    setting the key to the longer array; the last branch cannot be taken. *)
Definition groupStep (catMap : JsMap (list PackingItem)) (it : PackingItem)
    : JsMap (list PackingItem) :=
  let catMap :=
    if negb (Map_has (category it) catMap) then Map_set (category it) [] catMap
    else catMap in
  match Map_get (category it) catMap with
  | Some rows => Map_set (category it) (rows ++ [it]) catMap
  | None => catMap
  end.

(** [groupByCategory]. *)
Definition groupByCategory (items : list PackingItem) : JsMap (list PackingItem) :=
  fold_left groupStep items [].

(** The line feed. *)
Definition newline : string := String "010"%char EmptyString.

(** [q > 1]. *)
Definition num_gt_one (q : number Z) : bool :=
  match q with
  | Fin x => 1 <? x
  | PosInf => true
  | NegInf | NaN => false
  end.

Section ExportText.

(** The text a template literal gives a number. *)
Variable showNumber : number Z -> string.

(** The line of an item in [section]. *)
Definition itemLine (it : PackingItem) : string :=
  let qty := if num_gt_one (quantity it)
             then (" x" ++ showNumber (quantity it))%string else ""%string in
  ("- " ++ name it ++ qty)%string.

(** The array [lines] of [section] before it is joined. *)
Definition sectionLines (title : string) (bagList : list PackingItem) : list string :=
  let catMap := groupByCategory bagList in
  let lines := [title] in
  fold_left
    (fun lines entry =>
       let '(cat, rows) := entry in
       let lines := lines ++ [""%string] in
       let lines := lines ++ [cat] in
       fold_left (fun lines it => lines ++ [itemLine it]) rows lines)
    catMap lines.

(** The local function [section] of [buildExportText]. *)
Definition exportSection (title : string) (bagList : list PackingItem) : string :=
  String.concat newline (sectionLines title bagList).

(** [buildExportText]. *)
Definition buildExportText (items : list PackingItem) : string :=
  let carryOn := List.filter (fun x => String.eqb (bag x) "carryOn") items in
  let checked := List.filter (fun x => String.eqb (bag x) "checked") items in
  String.concat newline
    [exportSection "Carry on" carryOn; ""%string; exportSection "Checked baggage" checked].

End ExportText.

(** The items of one category, in list order. *)
Definition ofCategory (c : string) (items : list PackingItem) : list PackingItem :=
  List.filter (fun it => String.eqb (category it) c) items.

(** What the map of [groupByCategory] holds once the items [seen] have been
    processed. *)
Definition groupsOf (m : JsMap (list PackingItem)) (seen : list PackingItem) : Prop :=
  List.NoDup (Map_keys m) /\
  forall c, Map_get c m =
            match ofCategory c seen with
            | [] => None
            | rows => Some rows
            end.

(** ** The text handed to the print window *)

(** [s.replace(/c/g, r)] for a one-character pattern. *)
Fixpoint replaceAllChar (c : ascii) (r : string) (s : string) : string :=
  match s with
  | EmptyString => EmptyString
  | String d rest =>
      if Ascii.eqb d c then (r ++ replaceAllChar c r rest)%string
      else String d (replaceAllChar c r rest)
  end.

(** The constant [safe] of [printList]. *)
Definition printSafe (text : string) : string :=
  replaceAllChar "010" "<br/>"
    (replaceAllChar ">" "&gt;"
       (replaceAllChar "<" "&lt;"
          (replaceAllChar "&" "&amp;" text))).

(** What one character of the text becomes. *)
Definition escapeChar (c : ascii) : string :=
  if Ascii.eqb c "&" then "&amp;"%string
  else if Ascii.eqb c "<" then "&lt;"%string
  else if Ascii.eqb c ">" then "&gt;"%string
  else if Ascii.eqb c "010" then "<br/>"%string
  else String c EmptyString.

Fixpoint escapeEach (s : string) : string :=
  match s with
  | EmptyString => EmptyString
  | String c rest => (escapeChar c ++ escapeEach rest)%string
  end.

(** A text whose only markup is the line break: every [<] opens a [<br/>]
    and no [>] stands outside one. *)
Fixpoint onlyBreaks (s : string) : bool :=
  match s with
  | EmptyString => true
  | String c s1 =>
      if Ascii.eqb c "<" then
        match s1 with
        | String c1 (String c2 (String c3 (String c4 s5))) =>
            Ascii.eqb c1 "b" && Ascii.eqb c2 "r" && Ascii.eqb c3 "/" &&
            Ascii.eqb c4 ">" && onlyBreaks s5
        | _ => false
        end
      else if Ascii.eqb c ">" then false
      else onlyBreaks s1
  end.

(** The two bags the export prints. *)
Definition inExportedBag (x : PackingItem) : bool :=
  String.eqb (bag x) "carryOn" || String.eqb (bag x) "checked".

(** The items [generatePackingList] pushes whatever its argument. *)
Definition baselineItems : list PackingItem :=
  [packItem "Tech" "Main iPhone" (Fin 1) "carryOn";
   packItem "Tech" "Apple Watch" (Fin 1) "carryOn";
   packItem "Tech" "AirPods" (Fin 1) "carryOn";
   packItem "Tech" "Viture neckband" (Fin 1) "carryOn";
   packItem "Tech" "Viture glasses" (Fin 1) "carryOn";
   packItem "Tech" "iPhone charger" (Fin 1) "checked";
   packItem "Tech" "iPhone charging cable" (Fin 1) "carryOn";
   packItem "Tech" "Apple Watch charger" (Fin 1) "checked";
   packItem "Misc" "Pillow" (Fin 1) "checked";
   packItem "Toiletries" "Toothbrush" (Fin 1) "checked";
   packItem "Toiletries" "Toothpaste" (Fin 1) "checked";
   packItem "Toiletries" "Deodorant" (Fin 1) "checked";
   packItem "Toiletries" "Face masks" (Fin 1) "carryOn";
   packItem "Toiletries" "Travel hand sanitiser (100ml or less)" (Fin 1) "carryOn";
   packItem "Toiletries" "Body wash" (Fin 1) "checked";
   packItem "Toiletries" "Beard wash" (Fin 1) "checked";
   packItem "Toiletries" "Vitamins" (Fin 1) "checked";
   packItem "Toiletries" "Paracetamol" (Fin 1) "carryOn";
   packItem "Toiletries" "Band aids" (Fin 1) "checked";
   packItem "Toiletries" "Lip balm" (Fin 1) "carryOn";
   packItem "Toiletries" "Condoms" (Fin 1) "checked"].

(** The weather rule for the plain hat fires. *)
Definition weatherHat (state : State) : bool :=
  (0 <? days (mathsOf state)) &&
  match overallMax (weatherOf state) with
  | Some m => Qle_bool 32 m
  | None => false
  end.

(** The state with other Pokémon GO sub-flags. *)
Definition withSubFlags (state : State) (alt egg trade partner : bool) : State :=
  {| segments := segments state;
     washes := washes state;
     includeSpareSet := includeSpareSet state;
     pokemonGoNeeded := pokemonGoNeeded state;
     altAccount := alt;
     eggWalker := egg;
     tradeList := trade;
     partnerPokemon := partner;
     isInternational := isInternational state;
     isJapanTrip := isJapanTrip state;
     bringTablet := bringTablet state;
     bringWorkLaptop := bringWorkLaptop state |}.

(** The categories the engine uses. *)
Definition engineCategories : list string :=
  ["Tech"; "Documents"; "Money"; "Misc"; "Toiletries"; "Clothes"; "Pokémon GO"]%string.

(** An item in one of the two bags and one of the engine's categories. *)
Definition wellPlaced (o : PackingItem) : bool :=
  inExportedBag o && existsb (String.eqb (category o)) engineCategories.

(** * Properties *)

(** ** Arithmetic of the calendar *)

Lemma DayFromYear_succ (y : Z) :
  DayFromYear (y + 1) = DayFromYear y + (if InLeapYear y then 366 else 365).
Proof.
  unfold DayFromYear, InLeapYear.
  destruct (Z.eqb_spec (y mod 4) 0), (Z.eqb_spec (y mod 100) 0),
    (Z.eqb_spec (y mod 400) 0); simpl; Z.div_mod_to_equations; lia.
Qed.

Lemma DayFromYear_mono (y y' : Z) : y <= y' -> DayFromYear y <= DayFromYear y'.
Proof. unfold DayFromYear. intros H. Z.div_mod_to_equations. lia. Qed.

Lemma month_cases (m : Z) :
  1 <= m <= 12 ->
  m = 1 \/ m = 2 \/ m = 3 \/ m = 4 \/ m = 5 \/ m = 6 \/
  m = 7 \/ m = 8 \/ m = 9 \/ m = 10 \/ m = 11 \/ m = 12.
Proof. lia. Qed.

Lemma validYMD_bounds (y m d : Z) :
  validYMD y m d = true -> 1 <= m <= 12 /\ 1 <= d <= DaysInMonth y m.
Proof. unfold validYMD. rewrite !andb_true_iff, !Z.leb_le. lia. Qed.

(** Within a year the day of the year is below the year's length. *)
Lemma dayOfYear_bounds (y m d : Z) :
  validYMD y m d = true ->
  0 <= DaysBeforeMonth y m + (d - 1) < (if InLeapYear y then 366 else 365).
Proof.
  intros H. apply validYMD_bounds in H. destruct H as [Hm Hd].
  unfold DaysInMonth, DaysBeforeMonth in *.
  destruct (month_cases m Hm) as [->|[->|[->|[->|[->|[->|[->|[->|[->|[->|[->| ->]]]]]]]]]]];
    destruct (InLeapYear y); simpl in *; lia.
Qed.

(** A month ends before the next one starts. *)
Lemma DaysBeforeMonth_next (y m m' : Z) :
  1 <= m -> m < m' -> m' <= 12 ->
  DaysBeforeMonth y m + DaysInMonth y m <= DaysBeforeMonth y m'.
Proof.
  intros H1 H2 H3.
  assert (Hm : 1 <= m <= 12) by lia. assert (Hm' : 1 <= m' <= 12) by lia.
  unfold DaysInMonth, DaysBeforeMonth.
  destruct (month_cases m Hm) as [->|[->|[->|[->|[->|[->|[->|[->|[->|[->|[->| ->]]]]]]]]]]];
    destruct (month_cases m' Hm') as [->|[->|[->|[->|[->|[->|[->|[->|[->|[->|[->| ->]]]]]]]]]]];
    try lia; destruct (InLeapYear y); simpl; lia.
Qed.

(** The day number grows strictly with the calendar date. *)
Lemma MakeDay_lt (y1 m1 d1 y2 m2 d2 : Z) :
  validYMD y1 m1 d1 = true -> validYMD y2 m2 d2 = true ->
  dateBefore (y1, m1, d1) (y2, m2, d2) ->
  MakeDay y1 m1 d1 < MakeDay y2 m2 d2.
Proof.
  intros V1 V2 Hlt. unfold MakeDay.
  pose proof (dayOfYear_bounds _ _ _ V1) as B1.
  pose proof (dayOfYear_bounds _ _ _ V2) as B2.
  destruct Hlt as [Hy | [-> [Hm | [-> Hd]]]].
  - pose proof (DayFromYear_succ y1) as Hs.
    pose proof (DayFromYear_mono (y1 + 1) y2 ltac:(lia)) as Hmono.
    destruct (InLeapYear y1); lia.
  - apply validYMD_bounds in V1, V2.
    pose proof (DaysBeforeMonth_next y2 m1 m2 ltac:(lia) Hm ltac:(lia)). lia.
  - lia.
Qed.

(** ** Dates read from strings *)

Lemma civil_shape (iso : string) (y m d : Z) :
  civil iso = Some (y, m, d) ->
  splitYMD iso = Some (y, m, d, ""%string) /\ validYMD y m d = true.
Proof.
  unfold civil. destruct (splitYMD iso) as [[[[y' m'] d'] rest]|]; [|discriminate].
  destruct (String.eqb_spec rest "") as [->|]; simpl; [|discriminate].
  destruct (validYMD y' m' d') eqn:V; [|discriminate].
  intros [= <- <- <-]. auto.
Qed.

Lemma civil_truthy (iso : string) (c : Z * Z * Z) :
  civil iso = Some c -> truthy iso = true.
Proof. destruct iso; [discriminate | reflexivity]. Qed.

(** The time value [parseISODateToUTC] gives a valid date. *)
Lemma parseISODateToUTC_civil (iso : string) (y m d : Z) :
  civil iso = Some (y, m, d) ->
  parseISODateToUTC iso = Some (Fin (MakeDay y m d * msPerDay)).
Proof.
  intros H. unfold parseISODateToUTC.
  rewrite (civil_truthy _ _ H). simpl.
  apply civil_shape in H. destruct H as [Hs Hv].
  do 10 (destruct iso as [|? iso]; [discriminate|]).
  unfold Date_getTime. simpl in *.
  destruct (_ && _)%bool; [|discriminate].
  destruct (digits4 _ _ _ _); [|discriminate].
  destruct (digits2 _ _); [|discriminate].
  destruct (digits2 _ _); [|discriminate].
  injection Hs as -> -> -> ->. simpl. rewrite Hv. reflexivity.
Qed.

Lemma tripDaysInclusive_civil (s e : string) (cs ce : Z * Z * Z) :
  civil s = Some cs -> civil e = Some ce ->
  tripDaysInclusive s e =
    if 0 <=? floor_div (timeOf ce - timeOf cs) 86400000
    then floor_div (timeOf ce - timeOf cs) 86400000 + 1 else 0.
Proof.
  destruct cs as [[ys ms] ds], ce as [[ye me] de]. intros Hs He.
  unfold tripDaysInclusive.
  rewrite (parseISODateToUTC_civil _ _ _ _ Hs), (parseISODateToUTC_civil _ _ _ _ He).
  reflexivity.
Qed.

(** The day count never goes below zero. *)
Lemma tripDaysInclusive_nonneg (s e : string) : 0 <= tripDaysInclusive s e.
Proof.
  unfold tripDaysInclusive.
  destruct (parseISODateToUTC s) as [[ts| | |]|], (parseISODateToUTC e) as [[te| | |]|];
    try lia.
  cbv zeta. destruct (Z.leb_spec 0 (floor_div (te - ts) (1000 * 60 * 60 * 24))); lia.
Qed.

(** C4: for valid ISO dates, [tripDaysInclusive start end] is
    [floor((end - start) / 86400000) + 1] when the difference of the two time
    values is non-negative and [0] otherwise; a same-day range yields [1] and
    a range whose end is before its start yields [0]. *)
Theorem tripDaysInclusive_spec (s e : string) (cs ce : Z * Z * Z) :
  civil s = Some cs -> civil e = Some ce ->
  tripDaysInclusive s e =
    (if 0 <=? timeOf ce - timeOf cs
     then (timeOf ce - timeOf cs) / 86400000 + 1 else 0)
  /\ (cs = ce -> tripDaysInclusive s e = 1)
  /\ (dateBefore ce cs -> tripDaysInclusive s e = 0).
Proof.
  intros Hs He.
  rewrite (tripDaysInclusive_civil _ _ _ _ Hs He). unfold floor_div.
  assert (Hsign : (0 <=? (timeOf ce - timeOf cs) / 86400000) = (0 <=? timeOf ce - timeOf cs)).
  { destruct (Z.leb_spec 0 (timeOf ce - timeOf cs)) as [H|H].
    - apply Z.leb_le. apply Z.div_pos; lia.
    - apply Z.leb_gt. apply Z.div_lt_upper_bound; lia. }
  rewrite Hsign. split; [reflexivity|]. split.
  - intros ->. rewrite Z.sub_diag. reflexivity.
  - intros Hlt.
    destruct cs as [[ys ms] ds], ce as [[ye me] de].
    apply civil_shape in Hs, He. destruct Hs as [_ Vs], He as [_ Ve].
    pose proof (MakeDay_lt _ _ _ _ _ _ Ve Vs Hlt) as Hday.
    unfold timeOf, msPerDay.
    destruct (Z.leb_spec 0 (MakeDay ye me de * (1000 * 60 * 60 * 24)
                            - MakeDay ys ms ds * (1000 * 60 * 60 * 24))); lia.
Qed.

Lemma tripDaysInclusive_spec_witness :
  tripDaysInclusive "2024-02-28" "2024-03-01" = 3
  /\ tripDaysInclusive "2024-03-01" "2024-03-01" = 1.
Proof.
  split.
  - exact (proj1 (tripDaysInclusive_spec "2024-02-28" "2024-03-01"
                    (2024, 2, 28) (2024, 3, 1) eq_refl eq_refl)).
  - exact (proj1 (proj2 (tripDaysInclusive_spec "2024-03-01" "2024-03-01"
                    (2024, 3, 1) (2024, 3, 1) eq_refl eq_refl)) eq_refl).
Defined.

(** ** Clothing arithmetic *)

(** With a positive divisor [ceil_div] is the usual rounded-up quotient. *)
Lemma ceil_div_pos (d c : Z) : 0 < c -> ceil_div d c = Fin ((d + c - 1) / c).
Proof.
  intros Hc. unfold ceil_div.
  destruct (Z.eqb_spec c 0) as [->|_]; [lia|].
  f_equal. Z.div_mod_to_equations. nia.
Qed.

Lemma ceil_quot_nonneg (d c : Z) : 0 <= d -> 0 < c -> 0 <= (d + c - 1) / c.
Proof. intros Hd Hc. apply Z.div_pos; lia. Qed.

Lemma ceil_quot_mono (d d' c : Z) :
  0 < c -> d <= d' -> (d + c - 1) / c <= (d' + c - 1) / c.
Proof. intros Hc Hd. apply Z.div_le_mono; lia. Qed.

Lemma ceil_quot_antitone (d c c' : Z) :
  0 < d -> 0 < c <= c' -> (d + c' - 1) / c' <= (d + c - 1) / c.
Proof.
  intros Hd Hc.
  replace (d + c' - 1) with ((d - 1) + 1 * c') by lia.
  replace (d + c - 1) with ((d - 1) + 1 * c) by lia.
  rewrite !Z.div_add by lia.
  apply Z.add_le_mono_r. apply Z.div_le_compat_l; lia.
Qed.

Lemma computeClothesMath_fields (s e : string) (w : number Z) (spare : bool) :
  let m := computeClothesMath s e w spare in
  days m = tripDaysInclusive s e /\
  washCount m = finiteOr w 0 /\
  cycles m = finiteOr w 0 + 1.
Proof. repeat split. Qed.

Lemma computeClothesMath_supported (s e : string) (w : number Z) (spare : bool) :
  supportedWashes w ->
  let m := computeClothesMath s e w spare in
  baseSets m = Fin (setsFor (days m) (washCount m) false) /\
  setsNeeded m = Fin (setsFor (days m) (washCount m) spare) /\
  0 <= washCount m.
Proof.
  intros Hw. unfold computeClothesMath, setsFor. cbn [days washCount baseSets setsNeeded].
  assert (H0 : 0 <= finiteOr w 0) by (destruct w; simpl in *; lia).
  destruct (Z.ltb_spec 0 (tripDaysInclusive s e)).
  - rewrite ceil_div_pos by lia. destruct spare; simpl; repeat split; try lia;
      f_equal; lia.
  - destruct spare; simpl; repeat split; lia.
Qed.

Lemma setsFor_nonneg (D W : Z) (spare : bool) : 0 <= D -> 0 <= W -> 0 <= setsFor D W spare.
Proof.
  intros HD HW. unfold setsFor.
  pose proof (ceil_quot_nonneg D (W + 1) HD ltac:(lia)).
  destruct (0 <? D), spare; lia.
Qed.

Lemma setsFor_mono_days (D D' W : Z) (spare : bool) :
  0 <= W -> D <= D' -> setsFor D W spare <= setsFor D' W spare.
Proof.
  intros HW HD. unfold setsFor.
  destruct (Z.ltb_spec 0 D), (Z.ltb_spec 0 D'); try lia.
  - pose proof (ceil_quot_mono D D' (W + 1) ltac:(lia) HD). lia.
  - pose proof (ceil_quot_nonneg D' (W + 1) ltac:(lia) ltac:(lia)). lia.
Qed.

Lemma setsFor_antitone_washes (D W W' : Z) (spare : bool) :
  0 <= W -> W <= W' -> setsFor D W' spare <= setsFor D W spare.
Proof.
  intros HW HW'. unfold setsFor.
  destruct (Z.ltb_spec 0 D); [|lia].
  pose proof (ceil_quot_antitone D (W + 1) (W' + 1) ltac:(lia) ltac:(lia)). lia.
Qed.

(** C2, as stated, fails: a negative finite wash count is used as it is.
    With five days and [washes = -3] the cycle count is [-2] and [baseSets]
    is [-2]. *)
Lemma washes_negative_counterexample :
  negativeOrNonNumeric (Fin (-3)) /\
  cycles (computeClothesMath "2024-03-01" "2024-03-05" (Fin (-3)) false) = -2 /\
  baseSets (computeClothesMath "2024-03-01" "2024-03-05" (Fin (-3)) false) = Fin (-2) /\
  ~ washesTreatedAsZero "2024-03-01" "2024-03-05" (Fin (-3)) false.
Proof.
  split; [reflexivity|]. split; [reflexivity|]. split; [reflexivity|].
  intros [H _]. vm_compute in H. discriminate H.
Qed.

(** C2, amended: a wash count that is not a finite number is treated as [0]
    (so [cycles = 1]); a non-negative integer wash count [W] gives
    [cycles = W + 1]; in both cases the cycle count is at least [1] and
    [baseSets] and [setsNeeded] are non-negative integers. *)
Theorem computeClothesMath_washes (s e : string) (w : number Z) (spare : bool) :
  supportedWashes w ->
  let m := computeClothesMath s e w spare in
  (isFinite w = false -> washCount m = 0 /\ cycles m = 1) /\
  (forall z, w = Fin z -> washCount m = z /\ cycles m = z + 1) /\
  1 <= cycles m /\
  nonNegInteger (baseSets m) /\ nonNegInteger (setsNeeded m).
Proof.
  intros Hw m.
  destruct (computeClothesMath_supported s e w spare Hw) as (Hb & Hn & H0).
  destruct (computeClothesMath_fields s e w spare) as (Hd & Hwc & Hc).
  fold m in Hb, Hn, H0, Hd, Hwc, Hc.
  pose proof (tripDaysInclusive_nonneg s e) as HD. rewrite <- Hd in HD.
  split; [|split; [|split; [|split]]].
  - intros Hf. rewrite Hc, Hwc. destruct w; simpl in *; try discriminate; auto.
  - intros z ->. rewrite Hc, Hwc. simpl. auto.
  - lia.
  - exists (setsFor (days m) (washCount m) false). split; [exact Hb|].
    apply setsFor_nonneg; assumption.
  - exists (setsFor (days m) (washCount m) spare). split; [exact Hn|].
    apply setsFor_nonneg; assumption.
Qed.

Lemma computeClothesMath_washes_witness :
  cycles (computeClothesMath "2024-03-01" "2024-03-05" NaN true) = 1 /\
  nonNegInteger (setsNeeded (computeClothesMath "2024-03-01" "2024-03-05" NaN true)).
Proof.
  pose proof (computeClothesMath_washes "2024-03-01" "2024-03-05" NaN true I)
    as (Hnan & _ & _ & _ & Hsets).
  split; [exact (proj2 (Hnan eq_refl)) | exact Hsets].
Defined.

(** C6: for a fixed spare-set flag and non-negative integer wash counts,
    [setsNeeded] does not decrease when the trip day-count grows (washes
    fixed) and does not increase when the wash count grows (days fixed). *)
Theorem setsNeeded_monotone (s e s' e' : string) (W W' : Z) (spare : bool) :
  0 <= W -> W <= W' ->
  tripDaysInclusive s e <= tripDaysInclusive s' e' ->
  exists a b c : Z,
    setsNeeded (computeClothesMath s e (Fin W) spare) = Fin a /\
    setsNeeded (computeClothesMath s' e' (Fin W) spare) = Fin b /\
    setsNeeded (computeClothesMath s e (Fin W') spare) = Fin c /\
    a <= b /\ c <= a.
Proof.
  intros HW HW' HD.
  destruct (computeClothesMath_supported s e (Fin W) spare HW) as (_ & Ha & _).
  destruct (computeClothesMath_supported s' e' (Fin W) spare HW) as (_ & Hb & _).
  destruct (computeClothesMath_supported s e (Fin W') spare ltac:(simpl; lia))
    as (_ & Hc & _).
  eexists _, _, _. split; [exact Ha|]. split; [exact Hb|]. split; [exact Hc|].
  cbn [days washCount computeClothesMath finiteOr]. split.
  - apply setsFor_mono_days; assumption.
  - apply setsFor_antitone_washes; assumption.
Qed.

Lemma setsNeeded_monotone_witness :
  exists a b c : Z,
    setsNeeded (computeClothesMath "2024-03-01" "2024-03-05" (Fin 1) true) = Fin a /\
    setsNeeded (computeClothesMath "2024-03-01" "2024-03-09" (Fin 1) true) = Fin b /\
    setsNeeded (computeClothesMath "2024-03-01" "2024-03-05" (Fin 3) true) = Fin c /\
    a <= b /\ c <= a.
Proof.
  apply (setsNeeded_monotone "2024-03-01" "2024-03-05" "2024-03-01" "2024-03-09" 1 3 true).
  - lia.
  - lia.
  - vm_compute. discriminate.
Defined.

(** ** The overall trip window *)

Lemma string_leb_refl (a : string) : String.leb a a = true.
Proof.
  unfold String.leb. destruct (String.compare a a) eqn:H; try reflexivity.
  pose proof (String.compare_antisym a a) as Ha. rewrite H in Ha. discriminate Ha.
Qed.

Lemma string_ltb_leb (a b : string) : String.ltb a b = true -> String.leb a b = true.
Proof. unfold String.ltb, String.leb. destruct (String.compare a b); auto. Qed.

Lemma string_nltb_leb (a b : string) : String.ltb a b = false -> String.leb b a = true.
Proof.
  unfold String.ltb, String.leb. rewrite (String.compare_antisym b a).
  destruct (String.compare a b); simpl; intros H; auto; discriminate H.
Qed.

Lemma string_leb_trans (a b c : string) :
  String.leb a b = true -> String.leb b c = true -> String.leb a c = true.
Proof.
  unfold String.leb.
  destruct (String.compare a b) eqn:Hab; try discriminate; intros _.
  - apply String.compare_eq_iff in Hab. subst. auto.
  - destruct (String.compare b c) eqn:Hbc; try discriminate; intros _.
    + apply String.compare_eq_iff in Hbc. subst. rewrite Hab. reflexivity.
    + apply String_as_OT.cmp_lt in Hab, Hbc.
      pose proof (String_as_OT.lt_trans _ _ _ Hab Hbc) as Hac.
      apply String_as_OT.cmp_lt in Hac. unfold String_as_OT.cmp in Hac.
      rewrite Hac. reflexivity.
Qed.

(** The fold that keeps the smaller string. *)
Lemma fold_min_spec (l : list string) (acc : string) :
  let r := fold_left (fun min d => if String.ltb d min then d else min) l acc in
  (r = acc \/ In r l) /\ String.leb r acc = true /\
  forall d, In d l -> String.leb r d = true.
Proof.
  revert acc. induction l as [|x l IH]; intros acc; simpl.
  - split; [auto|]. split; [apply string_leb_refl | intros d []].
  - destruct (IH (if String.ltb x acc then x else acc)) as (Hin & Hle & Hall).
    set (r := fold_left _ l _) in *.
    assert (Hstep : String.leb (if String.ltb x acc then x else acc) acc = true /\
                    String.leb (if String.ltb x acc then x else acc) x = true).
    { destruct (String.ltb x acc) eqn:Hx.
      - split; [apply string_ltb_leb; assumption | apply string_leb_refl].
      - split; [apply string_leb_refl | apply string_nltb_leb; assumption]. }
    destruct Hstep as [Hacc Hx]. split; [|split].
    + destruct Hin as [Hin|Hin]; [|auto].
      destruct (String.ltb x acc); rewrite Hin; auto.
    + eapply string_leb_trans; eassumption.
    + intros d [<-|Hd]; [eapply string_leb_trans; eassumption | auto].
Qed.

(** The fold that keeps the greater string. *)
Lemma fold_max_spec (l : list string) (acc : string) :
  let r := fold_left (fun max d => if String.ltb max d then d else max) l acc in
  (r = acc \/ In r l) /\ String.leb acc r = true /\
  forall d, In d l -> String.leb d r = true.
Proof.
  revert acc. induction l as [|x l IH]; intros acc; simpl.
  - split; [auto|]. split; [apply string_leb_refl | intros d []].
  - destruct (IH (if String.ltb acc x then x else acc)) as (Hin & Hle & Hall).
    set (r := fold_left _ l _) in *.
    assert (Hstep : String.leb acc (if String.ltb acc x then x else acc) = true /\
                    String.leb x (if String.ltb acc x then x else acc) = true).
    { destruct (String.ltb acc x) eqn:Hx.
      - split; [apply string_ltb_leb; assumption | apply string_leb_refl].
      - split; [apply string_leb_refl | apply string_nltb_leb; assumption]. }
    destruct Hstep as [Hacc Hx]. split; [|split].
    + destruct Hin as [Hin|Hin]; [|auto].
      destruct (String.ltb acc x); rewrite Hin; auto.
    + eapply string_leb_trans; eassumption.
    + intros d [<-|Hd]; [eapply string_leb_trans; eassumption | auto].
Qed.

Lemma reduce_min_isLexMin (l : list string) :
  l <> [] ->
  isLexMin (reduce_from_head (fun min d => if String.ltb d min then d else min) l ""%string) l.
Proof.
  destruct l as [|x l]; [congruence|]. intros _.
  unfold reduce_from_head. cbn [hd].
  destruct (fold_min_spec (x :: l) x) as (Hin & _ & Hall). split.
  - destruct Hin as [->|Hin]; [left; reflexivity | exact Hin].
  - exact Hall.
Qed.

Lemma reduce_max_isLexMax (l : list string) :
  l <> [] ->
  isLexMax (reduce_from_head (fun max d => if String.ltb max d then d else max) l ""%string) l.
Proof.
  destruct l as [|x l]; [congruence|]. intros _.
  unfold reduce_from_head. cbn [hd].
  destruct (fold_max_spec (x :: l) x) as (Hin & _ & Hall). split.
  - destruct Hin as [->|Hin]; [left; reflexivity | exact Hin].
  - exact Hall.
Qed.

Lemma computeOverallTripWindow_cases (segments : list Segment) :
  computeOverallTripWindow segments =
    match nonEmptyStarts segments, nonEmptyEnds segments with
    | [], _ | _, [] => emptyWindow
    | starts, ends =>
        {| startISO := reduce_from_head (fun min d => if String.ltb d min then d else min) starts ""%string;
           endISO := reduce_from_head (fun max d => if String.ltb max d then d else max) ends ""%string |}
    end.
Proof.
  unfold computeOverallTripWindow, nonEmptyStarts, nonEmptyEnds.
  destruct (List.filter truthy (map startDate segments)) as [|a starts];
    destruct (List.filter truthy (map endDate segments)) as [|b ends]; reflexivity.
Qed.

(** C3, as stated, fails: a segment with a start date and no end date has a
    date set, and yet the window is the pair of empty strings. *)
Lemma overallWindow_counterexample :
  anyDateSet [mkSegment "2024-03-01" "" NaN NaN false false false] /\
  computeOverallTripWindow [mkSegment "2024-03-01" "" NaN NaN false false false]
    = emptyWindow.
Proof.
  split; [|reflexivity].
  eexists. split; [left; reflexivity|]. left. reflexivity.
Qed.

(** C3, amended: [computeOverallTripWindow] returns the pair of empty strings
    exactly when no segment has a non-empty start date or no segment has a
    non-empty end date; otherwise it returns the lexicographic minimum of the
    non-empty start dates and the lexicographic maximum of the non-empty end
    dates. *)
Theorem computeOverallTripWindow_spec (segments : list Segment) :
  (computeOverallTripWindow segments = emptyWindow <->
   nonEmptyStarts segments = [] \/ nonEmptyEnds segments = []) /\
  (nonEmptyStarts segments <> [] -> nonEmptyEnds segments <> [] ->
   isLexMin (startISO (computeOverallTripWindow segments)) (nonEmptyStarts segments) /\
   isLexMax (endISO (computeOverallTripWindow segments)) (nonEmptyEnds segments)).
Proof.
  rewrite computeOverallTripWindow_cases.
  destruct (nonEmptyStarts segments) as [|a starts] eqn:Hs.
  { split; [split; auto | congruence]. }
  destruct (nonEmptyEnds segments) as [|b ends] eqn:He.
  { split; [split; auto | congruence]. }
  pose proof (reduce_min_isLexMin (a :: starts) ltac:(discriminate)) as Hmin.
  pose proof (reduce_max_isLexMax (b :: ends) ltac:(discriminate)) as Hmax.
  split; [|intros _ _; split; assumption].
  split; [|intros [H|H]; discriminate H].
  intros Heq. exfalso.
  apply (f_equal startISO) in Heq. cbn [startISO emptyWindow] in Heq.
  destruct Hmin as [Hin _]. rewrite Heq, <- Hs in Hin.
  unfold nonEmptyStarts in Hin. apply filter_In in Hin. destruct Hin as [_ Ht].
  discriminate Ht.
Qed.

Lemma computeOverallTripWindow_spec_witness :
  isLexMin "2024-03-01"
    (nonEmptyStarts [mkSegment "2024-03-05" "2024-03-07" NaN NaN false false false;
                     mkSegment "2024-03-01" "2024-03-03" NaN NaN false false false]) /\
  isLexMax "2024-03-07"
    (nonEmptyEnds [mkSegment "2024-03-05" "2024-03-07" NaN NaN false false false;
                   mkSegment "2024-03-01" "2024-03-03" NaN NaN false false false]).
Proof.
  apply (proj2 (computeOverallTripWindow_spec
                  [mkSegment "2024-03-05" "2024-03-07" NaN NaN false false false;
                   mkSegment "2024-03-01" "2024-03-03" NaN NaN false false false]));
    vm_compute; discriminate.
Defined.

(** ** The insertion-ordered map *)

Lemma Map_get_In {V : Type} (k : string) (v : V) (m : JsMap V) :
  Map_get k m = Some v -> In (k, v) m.
Proof.
  induction m as [|[k' w] m IH]; simpl; [discriminate|].
  destruct (String.eqb_spec k' k) as [->|Hne].
  - intros [= ->]. left. reflexivity.
  - intros H. right. apply IH, H.
Qed.

Lemma Map_get_None {V : Type} (k : string) (m : JsMap V) :
  Map_get k m = None <-> ~ In k (Map_keys m).
Proof.
  induction m as [|[k' w] m IH]; simpl.
  - split; [intros _ [] | reflexivity].
  - destruct (String.eqb_spec k' k) as [->|Hne].
    + split; [discriminate | intros H; exfalso; apply H; left; reflexivity].
    + rewrite IH. split; [intros H [Hk|Hk]; [congruence | exact (H Hk)] | tauto].
Qed.

Lemma Map_set_absent {V : Type} (k : string) (v : V) (m : JsMap V) :
  Map_get k m = None -> Map_set k v m = m ++ [(k, v)].
Proof.
  induction m as [|[k' w] m IH]; simpl; [reflexivity|].
  destruct (String.eqb_spec k' k) as [->|Hne]; [discriminate|].
  intros H. rewrite (IH H). reflexivity.
Qed.

Lemma Map_set_present_keys {V : Type} (k : string) (v w : V) (m : JsMap V) :
  Map_get k m = Some w -> Map_keys (Map_set k v m) = Map_keys m.
Proof.
  induction m as [|[k' u] m IH]; simpl; [discriminate|].
  destruct (String.eqb_spec k' k) as [->|Hne]; [reflexivity|].
  intros H. simpl. rewrite (IH H). reflexivity.
Qed.

Lemma Map_set_In {V : Type} (k : string) (v : V) (m : JsMap V) (e : string * V) :
  In e (Map_set k v m) -> e = (k, v) \/ In e m.
Proof.
  induction m as [|[k' u] m IH]; simpl.
  - intros [<-|[]]. left. reflexivity.
  - destruct (String.eqb_spec k' k) as [->|Hne]; simpl.
    + intros [<-|H]; auto.
    + intros [<-|H]; auto. destruct (IH H); auto.
Qed.

Lemma Map_set_has_key {V : Type} (k : string) (v : V) (m : JsMap V) :
  In k (Map_keys (Map_set k v m)).
Proof.
  induction m as [|[k' u] m IH]; simpl; [auto|].
  destruct (String.eqb_spec k' k) as [->|Hne]; simpl; auto.
Qed.

Lemma Map_set_keeps_keys {V : Type} (k k0 : string) (v : V) (m : JsMap V) :
  In k0 (Map_keys m) -> In k0 (Map_keys (Map_set k v m)).
Proof.
  induction m as [|[k' u] m IH]; simpl; [intros []|].
  destruct (String.eqb_spec k' k) as [->|Hne]; simpl; [auto|].
  intros [H|H]; auto.
Qed.

(** ** Merging duplicates *)

Lemma withQuantity_same (it : PackingItem) : withQuantity it (quantity it) = it.
Proof. destruct it. reflexivity. Qed.

Lemma mergeKey_withQuantity (it : PackingItem) (q : number Z) :
  mergeKey (withQuantity it q) = mergeKey it.
Proof. reflexivity. Qed.

(** A property of items that merging preserves holds of every value of the
    map after a step. *)
Lemma uniqStep_Forall (P : PackingItem -> Prop) (m : JsMap PackingItem) (it : PackingItem) :
  (forall ex, P ex -> P (mergedInto ex it)) ->
  P it ->
  Forall (fun e => P (snd e)) m ->
  Forall (fun e => P (snd e)) (uniqStep m it).
Proof.
  intros Hmerge Hit Hm. unfold uniqStep.
  destruct (Map_get (mergeKey it) m) as [ex|] eqn:Hget.
  - apply List.Forall_forall. intros e He.
    apply Map_set_In in He. destruct He as [->|He].
    + simpl. apply Hmerge.
      apply Map_get_In in Hget.
      exact (proj1 (List.Forall_forall _ _) Hm _ Hget).
    + exact (proj1 (List.Forall_forall _ _) Hm _ He).
  - rewrite Map_set_absent by exact Hget. rewrite withQuantity_same.
    apply List.Forall_app. split; [exact Hm|]. constructor; [exact Hit | constructor].
Qed.

Lemma fold_uniqStep_Forall (P : PackingItem -> Prop) (l : list PackingItem)
    (m : JsMap PackingItem) :
  (forall ex it, P ex -> P it -> P (mergedInto ex it)) ->
  Forall P l ->
  Forall (fun e => P (snd e)) m ->
  Forall (fun e => P (snd e)) (fold_left uniqStep l m).
Proof.
  intros Hmerge. revert m. induction l as [|it l IH]; intros m Hl Hm; simpl; [exact Hm|].
  inversion Hl as [|? ? Hit Hl']; subst.
  apply IH; [exact Hl'|]. apply uniqStep_Forall; auto.
Qed.

(** Properties of the items carry over to the merged list. *)
Lemma uniqItemsByBag_Forall (P : PackingItem -> Prop) (l : list PackingItem) :
  (forall ex it, P ex -> P it -> P (mergedInto ex it)) ->
  Forall P l -> Forall P (uniqItemsByBag l).
Proof.
  intros Hmerge Hl. unfold uniqItemsByBag, Map_values.
  apply List.Forall_map.
  apply fold_uniqStep_Forall; [exact Hmerge | exact Hl | constructor].
Qed.

Lemma uniqStep_keyed (m : JsMap PackingItem) (it : PackingItem) :
  Forall keyed m -> Forall keyed (uniqStep m it).
Proof.
  intros Hm. unfold uniqStep.
  destruct (Map_get (mergeKey it) m) as [ex|] eqn:Hget.
  - apply List.Forall_forall. intros e He.
    apply Map_set_In in He. destruct He as [->|He].
    + unfold keyed. simpl. rewrite mergeKey_withQuantity.
      apply Map_get_In in Hget.
      exact (proj1 (List.Forall_forall _ _) Hm _ Hget).
    + exact (proj1 (List.Forall_forall _ _) Hm _ He).
  - rewrite Map_set_absent by exact Hget. rewrite withQuantity_same.
    apply List.Forall_app. split; [exact Hm|].
    constructor; [reflexivity | constructor].
Qed.

Lemma uniqStep_NoDup (m : JsMap PackingItem) (it : PackingItem) :
  List.NoDup (Map_keys m) -> List.NoDup (Map_keys (uniqStep m it)).
Proof.
  intros Hm. unfold uniqStep.
  destruct (Map_get (mergeKey it) m) as [ex|] eqn:Hget.
  - rewrite (Map_set_present_keys _ _ _ _ Hget). exact Hm.
  - rewrite Map_set_absent by exact Hget.
    unfold Map_keys. rewrite List.map_app. simpl.
    apply Map_get_None in Hget.
    apply List.NoDup_app; repeat split.
    + exact Hm.
    + constructor; [intros [] | constructor].
    + intros k Hk [<-|[]]. exact (Hget Hk).
Qed.

Lemma uniqStep_has_key (m : JsMap PackingItem) (it : PackingItem) :
  In (mergeKey it) (Map_keys (uniqStep m it)).
Proof.
  unfold uniqStep. destruct (Map_get (mergeKey it) m); apply Map_set_has_key.
Qed.

Lemma uniqStep_keeps_keys (m : JsMap PackingItem) (it : PackingItem) (k : string) :
  In k (Map_keys m) -> In k (Map_keys (uniqStep m it)).
Proof.
  intros H. unfold uniqStep.
  destruct (Map_get (mergeKey it) m); apply Map_set_keeps_keys, H.
Qed.

Lemma fold_uniqStep_invariant (l : list PackingItem) (m : JsMap PackingItem) :
  Forall keyed m -> List.NoDup (Map_keys m) ->
  Forall keyed (fold_left uniqStep l m) /\ List.NoDup (Map_keys (fold_left uniqStep l m)).
Proof.
  revert m. induction l as [|it l IH]; intros m Hk Hn; simpl; [auto|].
  apply IH; [apply uniqStep_keyed | apply uniqStep_NoDup]; assumption.
Qed.

Lemma fold_uniqStep_keys (l : list PackingItem) (m : JsMap PackingItem) (k : string) :
  In k (Map_keys m) \/ (exists i, In i l /\ mergeKey i = k) ->
  In k (Map_keys (fold_left uniqStep l m)).
Proof.
  revert m. induction l as [|it l IH]; intros m H; simpl.
  - destruct H as [H|(i & [] & _)]. exact H.
  - apply IH. destruct H as [H|(i & [<-|Hi] & Hk)].
    + left. apply uniqStep_keeps_keys, H.
    + left. rewrite <- Hk. apply uniqStep_has_key.
    + right. exists i. auto.
Qed.

(** The merged list has one item per key. *)
Lemma uniqItemsByBag_NoDup (l : list PackingItem) :
  List.NoDup (map mergeKey (uniqItemsByBag l)).
Proof.
  destruct (fold_uniqStep_invariant l [] ltac:(constructor) ltac:(constructor))
    as [Hk Hn].
  unfold uniqItemsByBag, Map_values. rewrite List.map_map.
  replace (map (fun x => mergeKey (snd x)) (fold_left uniqStep l []))
    with (Map_keys (fold_left uniqStep l [])); [exact Hn|].
  unfold Map_keys. apply List.map_ext_in. intros e He.
  exact (proj1 (List.Forall_forall _ _) Hk _ He).
Qed.

(** Every item's key is the key of some merged item. *)
Lemma uniqItemsByBag_complete (l : list PackingItem) (i : PackingItem) :
  In i l -> exists o, In o (uniqItemsByBag l) /\ mergeKey o = mergeKey i.
Proof.
  intros Hi.
  destruct (fold_uniqStep_invariant l [] ltac:(constructor) ltac:(constructor))
    as [Hk _].
  assert (Hkey : In (mergeKey i) (Map_keys (fold_left uniqStep l []))).
  { apply fold_uniqStep_keys. right. exists i. auto. }
  unfold Map_keys in Hkey. apply List.in_map_iff in Hkey.
  destruct Hkey as ([k o] & Hfst & He). simpl in Hfst. subst k.
  exists o. split.
  - unfold uniqItemsByBag, Map_values. apply List.in_map_iff.
    exists (mergeKey i, o). auto.
  - pose proof (proj1 (List.Forall_forall _ _) Hk _ He) as Hkd.
    unfold keyed in Hkd. simpl in Hkd. symmetry. exact Hkd.
Qed.

(** Every merged item has the bag, category and name of some input item. *)
Lemma uniqItemsByBag_sound (l : list PackingItem) (o : PackingItem) :
  In o (uniqItemsByBag l) -> exists i, In i l /\ sameTriple o i.
Proof.
  intros Ho.
  assert (H : Forall (fun v => exists i, In i l /\ sameTriple v i) (uniqItemsByBag l)).
  { apply uniqItemsByBag_Forall.
    - intros ex it (i & Hi & Hs) _. exists i. split; [exact Hi | exact Hs].
    - apply List.Forall_forall. intros i Hi. exists i. split; [exact Hi|].
      repeat split. }
  exact (proj1 (List.Forall_forall _ _) H _ Ho).
Qed.

Lemma num_pos_merged (a b : number Z) :
  num_pos a = true -> num_pos b = true ->
  num_pos (num_add (num_or_one a) (num_or_one b)) = true.
Proof.
  destruct a as [x| | |], b as [y| | |]; simpl; try discriminate; try reflexivity.
  - rewrite !Z.ltb_lt. intros Hx Hy.
    destruct x; try lia; destruct y; try lia. simpl. lia.
  - intros Hx _. destruct x; try reflexivity; discriminate Hx.
  - intros _ Hy. destruct y; try reflexivity; discriminate Hy.
Qed.

(** Merging positive quantities keeps them positive. *)
Lemma uniqItemsByBag_positive (l : list PackingItem) :
  Forall (fun it => num_pos (quantity it) = true) l ->
  Forall (fun it => num_pos (quantity it) = true) (uniqItemsByBag l).
Proof.
  apply uniqItemsByBag_Forall.
  intros ex it Hex Hit. simpl. apply num_pos_merged; assumption.
Qed.

(** A list without duplicate keys is left as it is. *)
Lemma fold_uniqStep_fresh (l : list PackingItem) (m : JsMap PackingItem) :
  List.NoDup (map mergeKey l) ->
  (forall i, In i l -> ~ In (mergeKey i) (Map_keys m)) ->
  fold_left uniqStep l m = m ++ map (fun it => (mergeKey it, it)) l.
Proof.
  revert m. induction l as [|it l IH]; intros m Hn Hfresh; simpl.
  - symmetry. apply List.app_nil_r.
  - inversion Hn as [|? ? Hnotin Hn']; subst.
    assert (Hget : Map_get (mergeKey it) m = None).
    { apply Map_get_None. apply Hfresh. left. reflexivity. }
    unfold uniqStep at 2. rewrite Hget, Map_set_absent by exact Hget.
    rewrite withQuantity_same.
    rewrite IH.
    + rewrite <- List.app_assoc. reflexivity.
    + exact Hn'.
    + intros i Hi. unfold Map_keys. rewrite List.map_app, List.in_app_iff. simpl.
      intros [Hk|[Hk|[]]].
      * exact (Hfresh i (or_intror Hi) Hk).
      * apply Hnotin. rewrite Hk. apply List.in_map. exact Hi.
Qed.

Lemma uniqItemsByBag_NoDup_id (l : list PackingItem) :
  List.NoDup (map mergeKey l) -> uniqItemsByBag l = l.
Proof.
  intros Hn. unfold uniqItemsByBag, Map_values.
  rewrite fold_uniqStep_fresh; [|exact Hn | intros i _ []].
  simpl. rewrite List.map_map. simpl. apply List.map_id.
Qed.

(** ** Sorting *)

Section SortingFacts.

Variable localeCompare : string -> string -> Z.

Lemma insertSorted_perm (x : PackingItem) (l : list PackingItem) :
  Permutation (insertSorted localeCompare x l) (x :: l).
Proof.
  induction l as [|y l IH]; simpl; [reflexivity|].
  destruct (0 <? compareItems localeCompare x y); [|reflexivity].
  rewrite IH. apply perm_swap.
Qed.

(** Sorting rearranges the list and nothing more. *)
Lemma sortItems_perm (l : list PackingItem) :
  Permutation (sortItems localeCompare l) l.
Proof.
  induction l as [|x l IH]; simpl; [reflexivity|].
  rewrite insertSorted_perm. constructor. exact IH.
Qed.

(** A list in order is returned as it is. *)
Lemma sortItems_sorted_id (l : list PackingItem) :
  Sorted (itemOrdered localeCompare) l -> sortItems localeCompare l = l.
Proof.
  induction l as [|x l IH]; intros Hs; simpl; [reflexivity|].
  inversion Hs as [|? ? Hl Hhd]; subst.
  rewrite (IH Hl). destruct Hhd as [|y r Hxy]; simpl; [reflexivity|].
  unfold itemOrdered in Hxy. rewrite Hxy. reflexivity.
Qed.

(** The collation answers the two orders of a question consistently. *)
Hypothesis localeCompare_antisym :
  forall a b, Z.sgn (localeCompare b a) = - Z.sgn (localeCompare a b).

Lemma compareItems_antisym (a b : PackingItem) :
  (0 <? compareItems localeCompare a b) = true ->
  (0 <? compareItems localeCompare b a) = false.
Proof.
  unfold compareItems.
  rewrite (String.eqb_sym (bag b)), (String.eqb_sym (category b)).
  assert (Hlc : forall s t, (0 <? localeCompare s t) = true ->
                            (0 <? localeCompare t s) = false).
  { intros s t Hst. pose proof (localeCompare_antisym s t) as Ha.
    apply Z.ltb_lt in Hst. apply Z.ltb_ge. lia. }
  destruct (String.eqb (bag a) (bag b)); simpl; [|apply Hlc].
  destruct (String.eqb (category a) (category b)); simpl; apply Hlc.
Qed.

Lemma insertSorted_HdRel (x y : PackingItem) (l : list PackingItem) :
  HdRel (itemOrdered localeCompare) y l ->
  itemOrdered localeCompare y x ->
  HdRel (itemOrdered localeCompare) y (insertSorted localeCompare x l).
Proof.
  intros Hhd Hyx. destruct l as [|z l]; simpl; [constructor; exact Hyx|].
  destruct (0 <? compareItems localeCompare x z).
  - constructor. inversion Hhd; assumption.
  - constructor. exact Hyx.
Qed.

Lemma insertSorted_sorted (x : PackingItem) (l : list PackingItem) :
  Sorted (itemOrdered localeCompare) l ->
  Sorted (itemOrdered localeCompare) (insertSorted localeCompare x l).
Proof.
  induction l as [|y l IH]; intros Hs; simpl.
  - constructor; constructor.
  - inversion Hs as [|? ? Hl Hhd]; subst.
    destruct (0 <? compareItems localeCompare x y) eqn:Hxy.
    + constructor; [apply IH, Hl|].
      apply insertSorted_HdRel; [exact Hhd|].
      apply compareItems_antisym, Hxy.
    + constructor; [exact Hs|]. constructor. exact Hxy.
Qed.

Lemma sortItems_sorted (l : list PackingItem) :
  Sorted (itemOrdered localeCompare) (sortItems localeCompare l).
Proof.
  induction l as [|x l IH]; simpl; [constructor|].
  apply insertSorted_sorted, IH.
Qed.

End SortingFacts.

Lemma codeUnitCompare_antisym (a b : string) :
  Z.sgn (codeUnitCompare b a) = - Z.sgn (codeUnitCompare a b).
Proof.
  unfold codeUnitCompare. rewrite (String.compare_antisym a b).
  destruct (String.compare b a); reflexivity.
Qed.

(** ** Consolidation *)

Lemma cleaned_positive (l : list PackingItem) :
  Forall (fun it => num_pos (quantity it) = true) (cleaned l).
Proof.
  apply List.Forall_forall. intros it Hit.
  apply List.filter_In in Hit. exact (proj2 Hit).
Qed.

Lemma cleaned_id (l : list PackingItem) :
  Forall (fun it => num_pos (quantity it) = true) l -> cleaned l = l.
Proof.
  unfold cleaned. induction 1 as [|x l Hx Hl IH]; simpl; [reflexivity|].
  rewrite Hx, IH. reflexivity.
Qed.

(** C7: consolidation (drop the items whose quantity is not positive, merge
    by bag, category and name summing the quantities, sort by bag, then
    category, then name) is idempotent: consolidating a consolidated list
    returns it unchanged.  The collation behind [localeCompare] is taken to
    answer [a] against [b] and [b] against [a] with opposite signs. *)
Theorem consolidate_idempotent (localeCompare : string -> string -> Z)
    (items : list PackingItem) :
  (forall a b, Z.sgn (localeCompare b a) = - Z.sgn (localeCompare a b)) ->
  consolidate localeCompare (consolidate localeCompare items)
  = consolidate localeCompare items.
Proof.
  intros Hanti. unfold consolidate.
  set (merged := uniqItemsByBag (cleaned items)).
  set (sorted := sortItems localeCompare merged).
  assert (Hperm : Permutation sorted merged) by apply sortItems_perm.
  assert (Hpos : Forall (fun it => num_pos (quantity it) = true) sorted).
  { apply (Permutation_Forall (Permutation_sym Hperm)).
    apply uniqItemsByBag_positive, cleaned_positive. }
  assert (Hnodup : List.NoDup (map mergeKey sorted)).
  { apply (Permutation_NoDup (Permutation_map mergeKey (Permutation_sym Hperm))).
    apply uniqItemsByBag_NoDup. }
  rewrite (cleaned_id _ Hpos), (uniqItemsByBag_NoDup_id _ Hnodup).
  apply sortItems_sorted_id. apply sortItems_sorted. exact Hanti.
Qed.

Lemma consolidate_idempotent_witness :
  let items := [packItem "Clothes" "Hat" (Fin 1) "checked";
                packItem "Tech" "AirPods" (Fin 1) "carryOn";
                packItem "Clothes" "Bottoms" (Fin 0) "checked";
                packItem "Clothes" "Hat" (Fin 1) "checked"] in
  consolidate codeUnitCompare (consolidate codeUnitCompare items)
  = consolidate codeUnitCompare items.
Proof.
  intros items.
  apply (consolidate_idempotent codeUnitCompare items).
  exact codeUnitCompare_antisym.
Defined.

(** ** Keys of the engine's items *)

Lemma append_sep_inj (a b r1 r2 : string) :
  plain a = true -> plain b = true ->
  (a ++ String "_" r1)%string = (b ++ String "_" r2)%string ->
  a = b /\ r1 = r2.
Proof.
  revert b. induction a as [|c a IH]; intros [|d b]; simpl.
  - intros _ _ [= ->]. auto.
  - intros _ Hb [= <- _]. discriminate Hb.
  - intros Ha _ [= -> _]. discriminate Ha.
  - intros Ha Hb [= -> Heq].
    apply andb_true_iff in Ha, Hb. destruct Ha as [_ Ha], Hb as [_ Hb].
    destruct (IH b Ha Hb Heq) as [-> ->]. auto.
Qed.

(** Among items with plain bags and categories the key determines the bag,
    the category and the name. *)
Lemma mergeKey_inj (a b : PackingItem) :
  plainItem a = true -> plainItem b = true ->
  mergeKey a = mergeKey b -> sameTriple a b.
Proof.
  unfold plainItem, mergeKey, sameTriple. rewrite !andb_true_iff.
  intros [Hba Hca] [Hbb Hcb] Hkey. simpl in Hkey.
  apply append_sep_inj in Hkey; try assumption.
  destruct Hkey as [Hbag Hrest]. injection Hrest as Hrest.
  apply append_sep_inj in Hrest; try assumption.
  destruct Hrest as [Hcat Hname]. injection Hname as Hname. auto.
Qed.

Ltac split_items :=
  repeat first
    [ apply List.Forall_nil
    | apply List.Forall_cons
    | (apply List.Forall_app; split)
    | match goal with
      | |- Forall _ (if ?b then _ else _) => destruct b
      | |- Forall _ (match ?o with Some _ => _ | None => _ end) => destruct o
      end ].

Lemma addWeatherClothes_plain (items : list PackingItem) (minT maxT : option Q)
    (rain sun : bool) :
  Forall (fun it => plainItem it = true) items ->
  Forall (fun it => plainItem it = true) (addWeatherClothes items minT maxT rain sun).
Proof.
  intros H. unfold addWeatherClothes. cbv zeta. split_items; try exact H; reflexivity.
Qed.

Lemma clothesBlock_plain (maths : ClothesMath) (weather : WeatherSummary) :
  Forall (fun it => plainItem it = true) (clothesBlock maths weather).
Proof.
  unfold clothesBlock. cbv zeta. apply addWeatherClothes_plain.
  split_items; reflexivity.
Qed.

(** Every item the engine pushes has a plain bag and a plain category. *)
Lemma rawItems_plain (state : State) :
  Forall (fun it => plainItem it = true) (rawItems state).
Proof.
  unfold rawItems. cbv zeta.
  split_items; try apply clothesBlock_plain; reflexivity.
Qed.

(** ** What the generated list holds *)

Section Membership.

Variable localeCompare : string -> string -> Z.

(** Every consolidated item has the bag, category and name of an item of
    the list. *)
Lemma consolidate_sound (l : list PackingItem) (o : PackingItem) :
  In o (consolidate localeCompare l) -> exists i, In i l /\ sameTriple o i.
Proof.
  unfold consolidate. intros Ho.
  apply (Permutation_in _ (sortItems_perm localeCompare _)) in Ho.
  apply uniqItemsByBag_sound in Ho. destruct Ho as (i & Hi & Hs).
  exists i. split; [|exact Hs].
  unfold cleaned in Hi. apply List.filter_In in Hi. exact (proj1 Hi).
Qed.

(** An item of positive quantity survives consolidation, possibly merged. *)
Lemma consolidate_complete (l : list PackingItem) (i : PackingItem) :
  Forall (fun it => plainItem it = true) l ->
  In i l -> num_pos (quantity i) = true ->
  exists o, In o (consolidate localeCompare l) /\ sameTriple o i.
Proof.
  intros Hplain Hi Hpos.
  assert (Hc : In i (cleaned l)).
  { unfold cleaned. apply List.filter_In. auto. }
  destruct (uniqItemsByBag_complete _ _ Hc) as (o & Ho & Hkey).
  destruct (uniqItemsByBag_sound _ _ Ho) as (i' & Hi' & Hbag & Hcat & Hname).
  unfold cleaned in Hi'. apply List.filter_In in Hi'. destruct Hi' as [Hi' _].
  pose proof (proj1 (List.Forall_forall _ _) Hplain _ Hi) as Pi.
  pose proof (proj1 (List.Forall_forall _ _) Hplain _ Hi') as Pi'.
  exists o. split.
  - unfold consolidate.
    apply (Permutation_in _ (Permutation_sym (sortItems_perm localeCompare _))).
    exact Ho.
  - apply mergeKey_inj; [|exact Pi | exact Hkey].
    unfold plainItem in *. rewrite Hbag, Hcat. exact Pi'.
Qed.

(** An item the engine pushes with a positive quantity is in the list. *)
Lemma generatePackingList_has (state : State) (cat nm bg : string) (q : number Z) :
  In (packItem cat nm q bg) (rawItems state) -> num_pos q = true ->
  hasItem (generatePackingList localeCompare state) cat nm bg.
Proof.
  intros Hin Hq.
  destruct (consolidate_complete (rawItems state) _ (rawItems_plain state) Hin Hq)
    as (o & Ho & Hbag & Hcat & Hname).
  exists o. simpl in *. auto.
Qed.

(** A name in the list is the name of an item the engine pushed. *)
Lemma generatePackingList_name (state : State) (nm : string) :
  hasName (generatePackingList localeCompare state) nm ->
  exists i, In i (rawItems state) /\ name i = nm.
Proof.
  intros (o & Ho & Hnm).
  destruct (consolidate_sound _ _ Ho) as (i & Hi & _ & _ & Hname).
  exists i. split; [exact Hi | congruence].
Qed.

End Membership.

(** ** The Eki stamp book *)

Lemma rawItems_eki_in (state : State) :
  isJapanTrip state = true ->
  In (packItem "Misc" "Eki stamp book" (Fin 1) "carryOn") (rawItems state).
Proof.
  intros H. unfold rawItems. cbv zeta. rewrite H.
  rewrite !List.in_app_iff. simpl. tauto.
Qed.

Lemma addWeatherClothes_no_eki (items : list PackingItem) (minT maxT : option Q)
    (rain sun : bool) :
  Forall (fun it => name it <> "Eki stamp book"%string) items ->
  Forall (fun it => name it <> "Eki stamp book"%string)
    (addWeatherClothes items minT maxT rain sun).
Proof.
  intros H. unfold addWeatherClothes. cbv zeta. split_items; try exact H; discriminate.
Qed.

Lemma rawItems_eki_out (state : State) :
  isJapanTrip state = false ->
  Forall (fun it => name it <> "Eki stamp book"%string) (rawItems state).
Proof.
  intros H. unfold rawItems. cbv zeta. rewrite H.
  split_items;
    try (unfold clothesBlock; cbv zeta; apply addWeatherClothes_no_eki; split_items);
    discriminate.
Qed.

(** What the engine does: the Eki stamp book follows [isJapanTrip] alone. *)
Lemma eki_iff_isJapanTrip (localeCompare : string -> string -> Z) (state : State) :
  hasItem (generatePackingList localeCompare state) "Misc" "Eki stamp book" "carryOn"
  <-> isJapanTrip state = true.
Proof.
  split.
  - intros (o & Ho & _ & Hname & _).
    destruct (isJapanTrip state) eqn:Hj; [reflexivity|]. exfalso.
    destruct (generatePackingList_name localeCompare state "Eki stamp book")
      as (i & Hi & Hnm).
    { exists o. auto. }
    exact (proj1 (List.Forall_forall _ _) (rawItems_eki_out state Hj) _ Hi Hnm).
  - intros Hj. apply (generatePackingList_has localeCompare state _ _ _ (Fin 1)).
    + apply rawItems_eki_in, Hj.
    + reflexivity.
Qed.

(** C1 asks for the Eki stamp book to be left out when [isInternational] is
    false.  The engine tests [isJapanTrip] alone: with [isInternational]
    false and [isJapanTrip] true the generated list holds the carry-on
    "Eki stamp book", under every collation. *)
Theorem eki_without_international (localeCompare : string -> string -> Z) :
  isInternational japanNotInternational = false /\
  isJapanTrip japanNotInternational = true /\
  hasItem (generatePackingList localeCompare japanNotInternational)
    "Misc" "Eki stamp book" "carryOn".
Proof.
  split; [reflexivity|]. split; [reflexivity|].
  apply (generatePackingList_has localeCompare japanNotInternational _ _ _ (Fin 1)).
  - apply rawItems_eki_in. reflexivity.
  - reflexivity.
Qed.

(** ** Weather-driven clothes *)

Lemma clothesBlock_in_rawItems (state : State) (it : PackingItem) :
  0 < days (mathsOf state) ->
  In it (clothesBlock (mathsOf state) (weatherOf state)) ->
  In it (rawItems state).
Proof.
  intros Hd Hin. apply Z.ltb_lt in Hd.
  unfold rawItems. cbv zeta. fold (weatherOf state).
  change (computeClothesMath _ _ (washes state) (includeSpareSet state))
    with (mathsOf state).
  rewrite Hd. rewrite !List.in_app_iff. tauto.
Qed.

(** The pushes of [addWeatherClothes] at a minimum of 4 and a maximum of 30
    degrees with rain. *)
Lemma addWeatherClothes_cold_rainy (items : list PackingItem) (a b : Q) (sun : bool)
    (it : PackingItem) :
  a == 4 -> b == 30 ->
  In it [packItem "Clothes" "Warm jacket" (Fin 1) "checked";
         packItem "Clothes" "Warm layer (jumper or hoodie)" (Fin 1) "checked";
         packItem "Clothes" "Beanie" (Fin 1) "checked";
         packItem "Clothes" "Scarf" (Fin 1) "checked";
         packItem "Clothes" "Gloves" (Fin 1) "checked";
         packItem "Clothes" "Umbrella or rain jacket" (Fin 1) "checked";
         packItem "Clothes" "Hat (optional)" (Fin 1) "checked"] ->
  In it (addWeatherClothes items (Some a) (Some b) true sun).
Proof.
  intros Ha Hb Hin.
  assert (H5 : Qle_bool a 5 = true).
  { apply Qle_bool_iff. rewrite Ha. discriminate. }
  assert (H10 : Qle_bool a 10 = true).
  { apply Qle_bool_iff. rewrite Ha. discriminate. }
  assert (H28 : Qle_bool 28 b = true).
  { apply Qle_bool_iff. rewrite Hb. discriminate. }
  assert (H32 : Qle_bool 32 b = false).
  { destruct (Qle_bool 32 b) eqn:E; [|reflexivity].
    apply Qle_bool_iff in E. rewrite Hb in E. exfalso. apply E. reflexivity. }
  unfold addWeatherClothes. cbv zeta. rewrite H5, H10, H28, H32.
  rewrite !List.in_app_iff. simpl in *. tauto.
Qed.

Lemma addWeatherClothes_no_sunglasses (items : list PackingItem) (minT maxT : option Q)
    (rain : bool) :
  Forall (fun it => name it <> "Sunglasses"%string) items ->
  Forall (fun it => name it <> "Sunglasses"%string)
    (addWeatherClothes items minT maxT rain false).
Proof.
  intros H. unfold addWeatherClothes. cbv zeta iota.
  split_items; try exact H; discriminate.
Qed.

Lemma rawItems_no_sunglasses (state : State) :
  anySun (weatherOf state) = false ->
  Forall (fun it => name it <> "Sunglasses"%string) (rawItems state).
Proof.
  intros H. unfold weatherOf in H. unfold rawItems. cbv zeta.
  split_items;
    try (unfold clothesBlock; cbv zeta; rewrite H;
         apply addWeatherClothes_no_sunglasses; split_items);
    discriminate.
Qed.

(** C5: with a positive trip day-count and an aggregated weather of minimum
    4, maximum 30, rain somewhere and sun nowhere, the generated list has
    "Warm jacket", "Warm layer (jumper or hoodie)", "Beanie", "Scarf",
    "Gloves", "Umbrella or rain jacket" and "Hat (optional)", and has no
    "Sunglasses". *)
Theorem weather_clothes_example (localeCompare : string -> string -> Z)
    (state : State) (a b : Q) :
  0 < days (mathsOf state) ->
  overallMin (weatherOf state) = Some a -> a == 4 ->
  overallMax (weatherOf state) = Some b -> b == 30 ->
  anyRain (weatherOf state) = true ->
  anySun (weatherOf state) = false ->
  let out := generatePackingList localeCompare state in
  hasItem out "Clothes" "Warm jacket" "checked" /\
  hasItem out "Clothes" "Warm layer (jumper or hoodie)" "checked" /\
  hasItem out "Clothes" "Beanie" "checked" /\
  hasItem out "Clothes" "Scarf" "checked" /\
  hasItem out "Clothes" "Gloves" "checked" /\
  hasItem out "Clothes" "Umbrella or rain jacket" "checked" /\
  hasItem out "Clothes" "Hat (optional)" "checked" /\
  ~ hasName out "Sunglasses".
Proof.
  intros Hd Hmin Ha Hmax Hb Hrain Hsun out.
  assert (Hin : forall it,
             In it [packItem "Clothes" "Warm jacket" (Fin 1) "checked";
                    packItem "Clothes" "Warm layer (jumper or hoodie)" (Fin 1) "checked";
                    packItem "Clothes" "Beanie" (Fin 1) "checked";
                    packItem "Clothes" "Scarf" (Fin 1) "checked";
                    packItem "Clothes" "Gloves" (Fin 1) "checked";
                    packItem "Clothes" "Umbrella or rain jacket" (Fin 1) "checked";
                    packItem "Clothes" "Hat (optional)" (Fin 1) "checked"] ->
             In it (rawItems state)).
  { intros it Hit. apply clothesBlock_in_rawItems; [exact Hd|].
    unfold clothesBlock. cbv zeta. rewrite Hmin, Hmax, Hrain.
    apply addWeatherClothes_cold_rainy; assumption. }
  assert (Hhas : forall nm,
             In (packItem "Clothes" nm (Fin 1) "checked") (rawItems state) ->
             hasItem out "Clothes" nm "checked").
  { intros nm Hnm.
    apply (generatePackingList_has localeCompare state _ _ _ (Fin 1)); auto. }
  repeat split; try (apply Hhas, Hin; simpl; tauto).
  intros Hsg.
  destruct (generatePackingList_name localeCompare state _ Hsg) as (i & Hi & Hnm).
  exact (proj1 (List.Forall_forall _ _) (rawItems_no_sunglasses state Hsun) _ Hi Hnm).
Qed.

Lemma weather_clothes_example_witness :
  hasItem (generatePackingList codeUnitCompare rainyTrip) "Clothes" "Warm jacket" "checked" /\
  ~ hasName (generatePackingList codeUnitCompare rainyTrip) "Sunglasses".
Proof.
  pose proof (weather_clothes_example codeUnitCompare rainyTrip 4 30
                eq_refl eq_refl (Qeq_refl 4) eq_refl (Qeq_refl 30) eq_refl eq_refl)
    as H.
  split; [exact (proj1 H) | exact (proj2 (proj2 (proj2 (proj2 (proj2 (proj2 (proj2 H)))))))].
Defined.

(** ** Day counts, continued *)

Lemma tripDaysInclusive_days (s e : string) (cs ce : Z * Z * Z) :
  civil s = Some cs -> civil e = Some ce ->
  tripDaysInclusive s e =
    let '(ys, ms, ds) := cs in
    let '(ye, me, de) := ce in
    Z.max 0 (MakeDay ye me de - MakeDay ys ms ds + 1).
Proof.
  intros Hs He. rewrite (tripDaysInclusive_civil _ _ _ _ Hs He).
  destruct cs as [[ys ms] ds], ce as [[ye me] de].
  unfold floor_div, timeOf, msPerDay.
  replace (MakeDay ye me de * (1000 * 60 * 60 * 24) - MakeDay ys ms ds * (1000 * 60 * 60 * 24))
    with ((MakeDay ye me de - MakeDay ys ms ds) * 86400000) by lia.
  rewrite Z.div_mul by lia.
  destruct (Z.leb_spec 0 (MakeDay ye me de - MakeDay ys ms ds)); lia.
Qed.

Lemma MakeDay_le (y1 m1 d1 y2 m2 d2 : Z) :
  validYMD y1 m1 d1 = true -> validYMD y2 m2 d2 = true ->
  dateBefore (y1, m1, d1) (y2, m2, d2) \/ (y1, m1, d1) = (y2, m2, d2) ->
  MakeDay y1 m1 d1 <= MakeDay y2 m2 d2.
Proof.
  intros V1 V2 [H | [= -> -> ->]]; [|lia].
  pose proof (MakeDay_lt _ _ _ _ _ _ V1 V2 H). lia.
Qed.

(** X1: with the start fixed, a later end date never gives fewer days; with
    the end at or after the start the count is the number of calendar days
    from start to end, both included. *)
Theorem tripDaysInclusive_monotone (s e e' : string) (cs ce ce' : Z * Z * Z) :
  civil s = Some cs -> civil e = Some ce -> civil e' = Some ce' ->
  dateBefore ce ce' ->
  tripDaysInclusive s e <= tripDaysInclusive s e' /\
  (dateBefore cs ce \/ cs = ce -> tripDaysInclusive s e' = tripDaysInclusive s e
     + (tripDaysInclusive e e' - 1)).
Proof.
  intros Hs He He' Hlt.
  rewrite (tripDaysInclusive_days _ _ _ _ Hs He), (tripDaysInclusive_days _ _ _ _ Hs He'),
    (tripDaysInclusive_days _ _ _ _ He He').
  destruct cs as [[ys ms] ds], ce as [[ye me] de], ce' as [[ye' me'] de'].
  apply civil_shape in Hs, He, He'.
  destruct Hs as [_ Vs], He as [_ Ve], He' as [_ Ve'].
  pose proof (MakeDay_lt _ _ _ _ _ _ Ve Ve' Hlt) as Hee'.
  split; [lia|]. intros Hse.
  pose proof (MakeDay_le _ _ _ _ _ _ Vs Ve Hse). lia.
Qed.

Lemma tripDaysInclusive_monotone_witness :
  tripDaysInclusive "2024-02-27" "2024-02-28" <= tripDaysInclusive "2024-02-27" "2024-03-01".
Proof.
  apply (tripDaysInclusive_monotone "2024-02-27" "2024-02-28" "2024-03-01"
           (2024, 2, 27) (2024, 2, 28) (2024, 3, 1) eq_refl eq_refl eq_refl).
  right. split; [reflexivity|]. left. reflexivity.
Defined.

(** ** Clothing arithmetic, continued *)

(** X2: for a trip of [D > 0] days and a non-negative integer wash count,
    [baseSets] is the least number of sets that lasts the trip when each set
    serves one day per cycle: [baseSets * cycles] covers the days and one set
    fewer does not. *)
Theorem baseSets_covers_days (s e : string) (W : Z) (spare : bool) :
  0 <= W -> 0 < tripDaysInclusive s e ->
  exists b : Z,
    baseSets (computeClothesMath s e (Fin W) spare) = Fin b /\
    1 <= b /\
    tripDaysInclusive s e <= b * (W + 1) /\
    (b - 1) * (W + 1) < tripDaysInclusive s e.
Proof.
  intros HW HD.
  destruct (computeClothesMath_supported s e (Fin W) spare HW) as (Hb & _ & _).
  cbn [days washCount computeClothesMath finiteOr] in Hb.
  eexists. split; [exact Hb|]. unfold setsFor.
  apply Z.ltb_lt in HD. rewrite HD. apply Z.ltb_lt in HD.
  set (D := tripDaysInclusive s e) in *.
  assert (Hc : 0 < W + 1) by lia.
  pose proof (Z.div_mod (D + (W + 1) - 1) (W + 1) ltac:(lia)) as Hdm.
  pose proof (Z.mod_pos_bound (D + (W + 1) - 1) (W + 1) Hc) as Hmod.
  set (q := (D + (W + 1) - 1) / (W + 1)) in *.
  nia.
Qed.

Lemma baseSets_covers_days_witness :
  exists b : Z,
    baseSets (computeClothesMath "2024-03-01" "2024-03-05" (Fin 1) true) = Fin b /\
    1 <= b /\ 5 <= b * 2 /\ (b - 1) * 2 < 5.
Proof.
  apply (baseSets_covers_days "2024-03-01" "2024-03-05" 1 true); [lia | reflexivity].
Defined.

(** ** Membership of a day in a segment *)

Lemma string_compare_refl (a : string) : String.compare a a = Eq.
Proof.
  destruct (String.compare a a) eqn:H; [reflexivity| |];
    pose proof (String.compare_antisym a a) as Ha; rewrite H in Ha; discriminate Ha.
Qed.

(** X3: a day the exclusive test accepts is accepted by the inclusive test;
    when all three strings are present the two tests disagree on exactly one
    day, the end date of a range that has started. *)
Theorem dateInSegment_exclusive_inclusive (day start end_ : string) :
  (dateInSegmentExclusive day start end_ = true ->
   dateInSegmentInclusive day start end_ = true) /\
  (truthy day = true -> truthy start = true -> truthy end_ = true ->
   (dateInSegmentInclusive day start end_ = true /\
    dateInSegmentExclusive day start end_ = false
    <-> day = end_ /\ String.leb start end_ = true)).
Proof.
  unfold dateInSegmentExclusive, dateInSegmentInclusive, string_geb, string_lebJS,
    String.ltb, String.leb.
  split.
  - destruct (negb (truthy day) || negb (truthy start) || negb (truthy end_)); [auto|].
    rewrite !andb_true_iff, !negb_true_iff. intros [H1 H2]. split; [exact H1|].
    rewrite (String.compare_antisym end_ day).
    destruct (String.compare day end_); simpl; try reflexivity; discriminate H2.
  - intros -> -> ->. simpl.
    rewrite (String.compare_antisym end_ day), (String.compare_antisym day start).
    split.
    + intros [Hin Hex].
      destruct (String.compare day end_) eqn:Hde; simpl in *.
      * apply String.compare_eq_iff in Hde. subst.
        split; [reflexivity|].
        destruct (String.compare start end_); simpl in *; try reflexivity; discriminate.
      * destruct (String.compare start day); simpl in *; discriminate.
      * destruct (String.compare start day); simpl in *; discriminate.
    + intros [-> Hle]. rewrite string_compare_refl. simpl.
      destruct (String.compare start end_); simpl in *; auto; discriminate.
Qed.

Lemma dateInSegment_exclusive_inclusive_witness :
  dateInSegmentInclusive "2024-03-05" "2024-03-01" "2024-03-05" = true /\
  dateInSegmentExclusive "2024-03-05" "2024-03-01" "2024-03-05" = false.
Proof.
  apply (proj2 (dateInSegment_exclusive_inclusive "2024-03-05" "2024-03-01" "2024-03-05")
           eq_refl eq_refl eq_refl).
  split; reflexivity.
Defined.

(** ** Weather aggregation *)

Lemma weather_flags_fold (l : list Segment) (w : WeatherSummary) :
  anyRain (fold_left weatherStep l w) = anyRain w || existsb rainLikely l /\
  anySun (fold_left weatherStep l w) = anySun w || existsb hotSunLikely l /\
  anyHumid (fold_left weatherStep l w) = anyHumid w || existsb humidLikely l.
Proof.
  revert w. induction l as [|s l IH]; intros w; simpl.
  - rewrite !orb_false_r. auto.
  - destruct (IH (weatherStep w s)) as (-> & -> & ->). simpl.
    destruct (rainLikely s), (hotSunLikely s), (humidLikely s),
      (anyRain w), (anySun w), (anyHumid w); auto.
Qed.

(** X4: each trip-wide flag is set exactly when some segment sets it. *)
Theorem computeWeatherSummary_flags (segments : list Segment) :
  (anyRain (computeWeatherSummary segments) = true <->
   exists s, In s segments /\ rainLikely s = true) /\
  (anySun (computeWeatherSummary segments) = true <->
   exists s, In s segments /\ hotSunLikely s = true) /\
  (anyHumid (computeWeatherSummary segments) = true <->
   exists s, In s segments /\ humidLikely s = true).
Proof.
  unfold computeWeatherSummary.
  destruct (weather_flags_fold segments
              {| overallMin := None; overallMax := None;
                 anyRain := false; anySun := false; anyHumid := false |})
    as (-> & -> & ->).
  simpl. rewrite !List.existsb_exists. tauto.
Qed.

(** The running minimum over a list of temperatures. *)
Lemma overallMin_fold (l : list Segment) (w : WeatherSummary) :
  overallMin (fold_left weatherStep l w) =
  fold_left (fun acc t => Some (match acc with None => t | Some o => Qmin o t end))
    (finiteMins l) (overallMin w).
Proof.
  revert w. induction l as [|s l IH]; intros w; simpl; [reflexivity|].
  rewrite IH. unfold finiteMins. simpl.
  destruct (safeParseNumber (tempMin s)) as [t|]; simpl; [|reflexivity].
  destruct (overallMin w); reflexivity.
Qed.

Lemma overallMax_fold (l : list Segment) (w : WeatherSummary) :
  overallMax (fold_left weatherStep l w) =
  fold_left (fun acc t => Some (match acc with None => t | Some o => Qmax o t end))
    (finiteMaxs l) (overallMax w).
Proof.
  revert w. induction l as [|s l IH]; intros w; simpl; [reflexivity|].
  rewrite IH. unfold finiteMaxs. simpl.
  destruct (safeParseNumber (tempMax s)) as [t|]; simpl; [|reflexivity].
  destruct (overallMax w); reflexivity.
Qed.

Lemma running_min_spec (ts : list Q) (o : Q) :
  exists m,
    fold_left (fun acc t => Some (match acc with None => t | Some o => Qmin o t end))
      ts (Some o) = Some m /\
    (m <= o)%Q /\ (forall t, In t ts -> (m <= t)%Q) /\
    (m == o \/ exists t, In t ts /\ t == m).
Proof.
  revert o. induction ts as [|t ts IH]; intros o; simpl.
  - exists o. split; [reflexivity|]. split; [apply Qle_refl|].
    split; [intros t []|]. left. reflexivity.
  - destruct (IH (Qmin o t)) as (m & Hm & Hle & Hall & Hatt).
    exists m. split; [exact Hm|].
    pose proof (Q.le_min_l o t) as Hl. pose proof (Q.le_min_r o t) as Hr.
    split; [eapply Qle_trans; eassumption|]. split.
    + intros t' [<-|Ht']; [eapply Qle_trans; eassumption | auto].
    + destruct Hatt as [Heq | (t' & Ht' & Heq)].
      * destruct (Q.min_dec o t) as [Hd|Hd].
        -- left. rewrite Heq. exact Hd.
        -- right. exists t. split; [left; reflexivity|]. rewrite Heq. symmetry. exact Hd.
      * right. exists t'. auto.
Qed.

Lemma running_max_spec (ts : list Q) (o : Q) :
  exists m,
    fold_left (fun acc t => Some (match acc with None => t | Some o => Qmax o t end))
      ts (Some o) = Some m /\
    (o <= m)%Q /\ (forall t, In t ts -> (t <= m)%Q) /\
    (m == o \/ exists t, In t ts /\ t == m).
Proof.
  revert o. induction ts as [|t ts IH]; intros o; simpl.
  - exists o. split; [reflexivity|]. split; [apply Qle_refl|].
    split; [intros t []|]. left. reflexivity.
  - destruct (IH (Qmax o t)) as (m & Hm & Hle & Hall & Hatt).
    exists m. split; [exact Hm|].
    pose proof (Q.le_max_l o t) as Hl. pose proof (Q.le_max_r o t) as Hr.
    split; [eapply Qle_trans; eassumption|]. split.
    + intros t' [<-|Ht']; [eapply Qle_trans; eassumption | auto].
    + destruct Hatt as [Heq | (t' & Ht' & Heq)].
      * destruct (Q.max_dec o t) as [Hd|Hd].
        -- left. rewrite Heq. exact Hd.
        -- right. exists t. split; [left; reflexivity|]. rewrite Heq. symmetry. exact Hd.
      * right. exists t'. auto.
Qed.

(** X5: [overallMin] is absent exactly when no segment has a finite minimum
    temperature, and otherwise is the least of the finite minimum
    temperatures; [overallMax] likewise is the greatest of the finite maximum
    temperatures.  Fields that are not finite numbers take no part. *)
Theorem computeWeatherSummary_extremes (segments : list Segment) :
  (overallMin (computeWeatherSummary segments) = None <-> finiteMins segments = []) /\
  (forall m, overallMin (computeWeatherSummary segments) = Some m ->
     (exists t, In t (finiteMins segments) /\ t == m) /\
     forall t, In t (finiteMins segments) -> (m <= t)%Q) /\
  (overallMax (computeWeatherSummary segments) = None <-> finiteMaxs segments = []) /\
  (forall m, overallMax (computeWeatherSummary segments) = Some m ->
     (exists t, In t (finiteMaxs segments) /\ t == m) /\
     forall t, In t (finiteMaxs segments) -> (t <= m)%Q).
Proof.
  unfold computeWeatherSummary. rewrite overallMin_fold, overallMax_fold. simpl.
  split; [|split; [|split]].
  - destruct (finiteMins segments) as [|t ts]; simpl; [tauto|].
    destruct (running_min_spec ts t) as (m & -> & _). split; discriminate.
  - intros m. destruct (finiteMins segments) as [|t ts]; simpl; [discriminate|].
    destruct (running_min_spec ts t) as (m' & -> & Hle & Hall & Hatt).
    intros [= <-]. split.
    + destruct Hatt as [Heq | (t' & Ht' & Heq)].
      * exists t. split; [auto|]. symmetry. exact Heq.
      * exists t'. auto.
    + intros t' [<-|Ht']; auto.
  - destruct (finiteMaxs segments) as [|t ts]; simpl; [tauto|].
    destruct (running_max_spec ts t) as (m & -> & _). split; discriminate.
  - intros m. destruct (finiteMaxs segments) as [|t ts]; simpl; [discriminate|].
    destruct (running_max_spec ts t) as (m' & -> & Hle & Hall & Hatt).
    intros [= <-]. split.
    + destruct Hatt as [Heq | (t' & Ht' & Heq)].
      * exists t. split; [auto|]. symmetry. exact Heq.
      * exists t'. auto.
    + intros t' [<-|Ht']; auto.
Qed.

(** ** What consolidation guarantees *)

Lemma Map_set_In_other {V : Type} (k : string) (v : V) (m : JsMap V) (e : string * V) :
  List.NoDup (Map_keys m) ->
  In e (Map_set k v m) -> e = (k, v) \/ (In e m /\ fst e <> k).
Proof.
  induction m as [|[k' u] m IH]; simpl; intros Hn.
  - intros [<-|[]]. left. reflexivity.
  - inversion Hn as [|? ? Hnotin Hn']; subst.
    destruct (String.eqb_spec k' k) as [->|Hne]; simpl.
    + intros [<-|H]; [left; reflexivity|]. right. split; [right; exact H|].
      intros Heq. apply Hnotin. rewrite <- Heq.
      unfold Map_keys. apply List.in_map. exact H.
    + intros [<-|H]; [right; simpl; auto|].
      destruct (IH Hn' H) as [->|[Hin Hk]]; [left; reflexivity | right; auto].
Qed.

Lemma num_add_zero_l (q : number Z) : num_add (Fin 0) q = q.
Proof. destruct q; reflexivity. Qed.

Lemma num_or_one_pos (q : number Z) : num_pos q = true -> num_or_one q = q.
Proof. destruct q as [[| |]| | |]; simpl; try reflexivity; discriminate. Qed.

Lemma withKey_snoc (k : string) (l : list PackingItem) (it : PackingItem) :
  withKey k (l ++ [it]) =
  withKey k l ++ (if String.eqb (mergeKey it) k then [it] else []).
Proof. unfold withKey. rewrite List.filter_app. reflexivity. Qed.

Lemma keyTotal_snoc (k : string) (l : list PackingItem) (it : PackingItem) :
  keyTotal k (l ++ [it]) =
  if String.eqb (mergeKey it) k then num_add (keyTotal k l) (quantity it)
  else keyTotal k l.
Proof.
  unfold keyTotal. rewrite withKey_snoc.
  destruct (String.eqb (mergeKey it) k).
  - rewrite List.map_app, List.fold_left_app. reflexivity.
  - rewrite List.app_nil_r. reflexivity.
Qed.

Lemma uniqStep_totalsOf (m : JsMap PackingItem) (seen : list PackingItem)
    (it : PackingItem) :
  num_pos (quantity it) = true ->
  totalsOf m seen -> totalsOf (uniqStep m it) (seen ++ [it]).
Proof.
  intros Hpos (Hk & Hn & Hq & Hfresh).
  split; [apply uniqStep_keyed, Hk|]. split; [apply uniqStep_NoDup, Hn|].
  unfold uniqStep.
  destruct (Map_get (mergeKey it) m) as [ex|] eqn:Hget.
  - pose proof (Map_get_In _ _ _ Hget) as Hex.
    destruct (Hq _ _ Hex) as [Hqex Hpex]. split.
    + intros k v Hin. apply (Map_set_In_other _ _ _ _ Hn) in Hin.
      rewrite keyTotal_snoc.
      destruct Hin as [[= -> ->] | [Hin Hne]].
      * rewrite String.eqb_refl. simpl.
        rewrite (num_or_one_pos _ Hpex), (num_or_one_pos _ Hpos), <- Hqex.
        split; [reflexivity|].
        rewrite <- (num_or_one_pos _ Hpex), <- (num_or_one_pos _ Hpos) at 1.
        apply num_pos_merged; assumption.
      * simpl in Hne. destruct (String.eqb_spec (mergeKey it) k) as [Heq|_];
          [congruence | apply Hq, Hin].
    + intros k Hk'. rewrite (Map_set_present_keys _ _ _ _ Hget) in Hk'.
      rewrite withKey_snoc, (Hfresh k Hk').
      destruct (String.eqb_spec (mergeKey it) k) as [Heq|_]; [|reflexivity].
      exfalso. apply Hk'. rewrite <- Heq. unfold Map_keys.
      apply (List.in_map fst _ _ Hex).
  - pose proof (proj1 (Map_get_None _ _) Hget) as Hnot.
    rewrite Map_set_absent by exact Hget. rewrite withQuantity_same. split.
    + intros k v Hin. rewrite keyTotal_snoc. apply List.in_app_iff in Hin.
      destruct Hin as [Hin | [[= <- <-] | []]].
      * destruct (String.eqb_spec (mergeKey it) k) as [Heq|_]; [|apply Hq, Hin].
        exfalso. apply Hnot. rewrite Heq. unfold Map_keys.
        apply (List.in_map fst _ _ Hin).
      * rewrite String.eqb_refl. unfold keyTotal at 1. rewrite (Hfresh _ Hnot).
        cbn [map fold_left]. rewrite num_add_zero_l. auto.
    + intros k Hk'. unfold Map_keys in Hk'. rewrite List.map_app, List.in_app_iff in Hk'.
      simpl in Hk'. rewrite withKey_snoc.
      destruct (String.eqb_spec (mergeKey it) k) as [Heq|_]; [tauto|].
      rewrite List.app_nil_r. apply Hfresh. tauto.
Qed.

Lemma fold_uniqStep_totalsOf (l seen : list PackingItem) (m : JsMap PackingItem) :
  Forall (fun it => num_pos (quantity it) = true) l ->
  totalsOf m seen -> totalsOf (fold_left uniqStep l m) (seen ++ l).
Proof.
  revert seen m. induction l as [|it l IH]; intros seen m Hl Hm; simpl.
  - rewrite List.app_nil_r. exact Hm.
  - inversion Hl as [|? ? Hit Hl']; subst.
    replace (seen ++ it :: l) with ((seen ++ [it]) ++ l)
      by (rewrite <- List.app_assoc; reflexivity).
    apply IH; [exact Hl'|]. apply uniqStep_totalsOf; assumption.
Qed.

Lemma uniqItemsByBag_totals (l : list PackingItem) (o : PackingItem) :
  Forall (fun it => num_pos (quantity it) = true) l ->
  In o (uniqItemsByBag l) -> quantity o = keyTotal (mergeKey o) l.
Proof.
  intros Hl Ho.
  assert (H0 : totalsOf [] []).
  { split; [apply List.Forall_nil|]. split; [apply List.NoDup_nil|].
    split; [intros k v []|]. intros k _. reflexivity. }
  destruct (fold_uniqStep_totalsOf l [] [] Hl H0) as (Hk & _ & Hq & _).
  unfold uniqItemsByBag, Map_values in Ho. apply List.in_map_iff in Ho.
  destruct Ho as ([k v] & <- & Hin). simpl.
  pose proof (proj1 (List.Forall_forall _ _) Hk _ Hin) as Hkv.
  unfold keyed in Hkv. simpl in Hkv. rewrite <- Hkv.
  exact (proj1 (Hq _ _ Hin)).
Qed.

(** X6: in a consolidated list every quantity is positive and no two items
    share bag, category and name key. *)
Theorem consolidate_clean (localeCompare : string -> string -> Z)
    (items : list PackingItem) :
  Forall (fun it => num_pos (quantity it) = true) (consolidate localeCompare items) /\
  List.NoDup (map mergeKey (consolidate localeCompare items)).
Proof.
  unfold consolidate.
  pose proof (sortItems_perm localeCompare (uniqItemsByBag (cleaned items))) as Hperm.
  split.
  - apply (Permutation_Forall (Permutation_sym Hperm)).
    apply uniqItemsByBag_positive, cleaned_positive.
  - apply (Permutation_NoDup (Permutation_map mergeKey (Permutation_sym Hperm))).
    apply uniqItemsByBag_NoDup.
Qed.

(** X7: a consolidated list is in order: no item exceeds the one after it
    under the comparator (bag, then category, then name), for a collation
    that answers the two orders of a question with opposite signs. *)
Theorem consolidate_sorted (localeCompare : string -> string -> Z)
    (items : list PackingItem) :
  (forall a b, Z.sgn (localeCompare b a) = - Z.sgn (localeCompare a b)) ->
  Sorted (itemOrdered localeCompare) (consolidate localeCompare items).
Proof. intros Hanti. unfold consolidate. apply sortItems_sorted, Hanti. Qed.

Lemma consolidate_sorted_witness :
  Sorted (itemOrdered codeUnitCompare)
    (consolidate codeUnitCompare
       [packItem "Clothes" "Hat" (Fin 1) "checked";
        packItem "Tech" "AirPods" (Fin 1) "carryOn";
        packItem "Clothes" "Hat" (Fin 1) "checked"]).
Proof. apply consolidate_sorted. exact codeUnitCompare_antisym. Defined.

(** X8: the quantity of a consolidated item is the sum of the quantities of
    the positive-quantity items filed under its key. *)
Theorem consolidate_sums (localeCompare : string -> string -> Z)
    (items : list PackingItem) (o : PackingItem) :
  In o (consolidate localeCompare items) ->
  quantity o = keyTotal (mergeKey o) (cleaned items).
Proof.
  unfold consolidate. intros Ho.
  apply (Permutation_in _ (sortItems_perm localeCompare _)) in Ho.
  apply uniqItemsByBag_totals; [apply cleaned_positive | exact Ho].
Qed.

Lemma consolidate_sums_witness :
  quantity (packItem "Clothes" "Hat" (Fin 2) "checked") =
  keyTotal "checked__Clothes__Hat"
    (cleaned [packItem "Clothes" "Hat" (Fin 1) "checked";
              packItem "Tech" "AirPods" (Fin 1) "carryOn";
              packItem "Clothes" "Hat" (Fin 0) "checked";
              packItem "Clothes" "Hat" (Fin 1) "checked"]).
Proof.
  apply (consolidate_sums codeUnitCompare
           [packItem "Clothes" "Hat" (Fin 1) "checked";
            packItem "Tech" "AirPods" (Fin 1) "carryOn";
            packItem "Clothes" "Hat" (Fin 0) "checked";
            packItem "Clothes" "Hat" (Fin 1) "checked"]
           (packItem "Clothes" "Hat" (Fin 2) "checked")).
  vm_compute. right. left. reflexivity.
Defined.

(** X9: the keys of the consolidated list are exactly the keys of the items
    of positive quantity: nothing is invented and nothing positive is lost. *)
Theorem consolidate_keys (localeCompare : string -> string -> Z)
    (items : list PackingItem) (k : string) :
  In k (map mergeKey (consolidate localeCompare items)) <->
  exists i, In i items /\ num_pos (quantity i) = true /\ mergeKey i = k.
Proof.
  unfold consolidate. split.
  - intros Hk. apply List.in_map_iff in Hk. destruct Hk as (o & <- & Ho).
    apply (Permutation_in _ (sortItems_perm localeCompare _)) in Ho.
    destruct (uniqItemsByBag_sound _ _ Ho) as (i & Hi & Hb & Hc & Hn).
    unfold cleaned in Hi. apply List.filter_In in Hi. destruct Hi as [Hi Hpos].
    exists i. split; [exact Hi|]. split; [exact Hpos|].
    unfold mergeKey. rewrite Hb, Hc, Hn. reflexivity.
  - intros (i & Hi & Hpos & <-).
    assert (Hc : In i (cleaned items)) by (apply List.filter_In; auto).
    destruct (uniqItemsByBag_complete _ _ Hc) as (o & Ho & Hkey).
    rewrite <- Hkey. apply List.in_map.
    apply (Permutation_in _ (Permutation_sym (sortItems_perm localeCompare _))).
    exact Ho.
Qed.

(** ** The bag-override layer *)

Lemma getProperty_own {V : Type} (obj : gmap string V) (k : string) (v : V) :
  obj !! k = Some v -> getProperty obj k = Own v.
Proof. intros H. unfold getProperty. rewrite H. reflexivity. Qed.

Lemma getProperty_undefined {V : Type} (obj : gmap string V) (k : string) :
  obj !! k = None -> inheritsProperty k = false -> getProperty obj k = Undefined.
Proof. intros H Hi. unfold getProperty. rewrite H, Hi. reflexivity. Qed.

Lemma stableKey_withBag (it : ListedItem) (b : bagValue) :
  stableKey (withBag it b) = stableKey it.
Proof. reflexivity. Qed.

(** An override leaves everything but the bag alone, and touches the bag only
    of an item whose key the map holds or [Object.prototype] has. *)
Lemma overrideItem_frame (o : gmap string string) (it : ListedItem) :
  listedCategory (overrideItem o it) = listedCategory it /\
  listedName (overrideItem o it) = listedName it /\
  listedQuantity (overrideItem o it) = listedQuantity it /\
  (listedBag (overrideItem o it) <> listedBag it ->
   is_Some (o !! stableKey it) \/ inheritsProperty (stableKey it) = true).
Proof.
  unfold overrideItem, getProperty. cbv zeta.
  destruct (o !! stableKey it) as [b|] eqn:Hk.
  - destruct (truthy b); simpl; repeat split; intros _; left; eauto.
  - destruct (inheritsProperty (stableKey it)); simpl; repeat split.
    + intros _. right. reflexivity.
    + intros H. contradiction H. reflexivity.
Qed.

Lemma stableKey_overrideItem (o : gmap string string) (it : ListedItem) :
  stableKey (overrideItem o it) = stableKey it.
Proof.
  unfold stableKey. destruct (overrideItem_frame o it) as (-> & -> & _). reflexivity.
Qed.


Lemma overrideItem_untouched (o : gmap string string) (it : ListedItem) :
  o !! stableKey it = None -> inheritsProperty (stableKey it) = false ->
  overrideItem o it = it.
Proof.
  intros H Hi. unfold overrideItem. cbv zeta.
  rewrite (getProperty_undefined _ _ H Hi). reflexivity.
Qed.


(** No key of an item the engine pushes is a property name of
    [Object.prototype]. *)
Lemma addWeatherClothes_keys (items : list PackingItem) (minT maxT : option Q)
    (rain sun : bool) :
  Forall (fun it => keyInherited (listed it) = false) items ->
  Forall (fun it => keyInherited (listed it) = false)
    (addWeatherClothes items minT maxT rain sun).
Proof.
  intros H. unfold addWeatherClothes. cbv zeta. split_items; try exact H; reflexivity.
Qed.

Lemma clothesBlock_keys (maths : ClothesMath) (weather : WeatherSummary) :
  Forall (fun it => keyInherited (listed it) = false) (clothesBlock maths weather).
Proof.
  unfold clothesBlock. cbv zeta. apply addWeatherClothes_keys.
  split_items; reflexivity.
Qed.

Lemma rawItems_keys (state : State) :
  Forall (fun it => keyInherited (listed it) = false) (rawItems state).
Proof.
  unfold rawItems. cbv zeta.
  split_items; try apply clothesBlock_keys; reflexivity.
Qed.

Lemma generatePackingList_keys (localeCompare : string -> string -> Z)
    (state : State) :
  Forall (fun it => keyInherited it = false)
    (map listed (generatePackingList localeCompare state)).
Proof.
  apply List.Forall_forall. intros it Hit.
  apply List.in_map_iff in Hit. destruct Hit as (o & <- & Ho).
  destruct (consolidate_sound localeCompare _ _ Ho) as (i & Hi & _ & Hcat & Hname).
  pose proof (proj1 (List.Forall_forall _ _) (rawItems_keys state) _ Hi) as Hk.
  unfold keyInherited, stableKey, listed in *. cbn [listedCategory listedName] in *.
  rewrite Hcat, Hname. exact Hk.
Qed.





(** C10, as stated, fails: under the empty override map an item whose key is
    ["__proto__"] gets the inherited prototype object as its bag, although
    the map does not hold the key. *)
Lemma applyOverrides_frame_counterexample :
  let it := mkListed "" "proto__" (Fin 1) (BagString "checked") in
  let o : gmap string string := ∅ in
  nth_error [it] 0 = Some it /\
  nth_error (applyOverrides [it] o) 0 = Some (withBag it (BagInherited "__proto__")) /\
  listedBag (withBag it (BagInherited "__proto__")) <> listedBag it /\
  o !! stableKey it = None.
Proof.
  intros it o. split; [reflexivity|]. split; [reflexivity|]. split.
  - intros H. discriminate H.
  - apply lookup_empty.
Qed.

(** C10, amended: [applyOverrides] returns a list of the same length whose
    i-th item has the category, name and quantity of the i-th input item;
    its bag differs from the input's only if the override map holds the
    item's (category, name) key or that key is a property name of
    [Object.prototype]. *)
Theorem applyOverrides_frame (items : list ListedItem) (o : gmap string string) :
  length (applyOverrides items o) = length items /\
  forall (i : nat) (it : ListedItem),
    nth_error items i = Some it ->
    exists it',
      nth_error (applyOverrides items o) i = Some it' /\
      listedCategory it' = listedCategory it /\
      listedName it' = listedName it /\
      listedQuantity it' = listedQuantity it /\
      (listedBag it' <> listedBag it ->
       is_Some (o !! stableKey it) \/ inheritsProperty (stableKey it) = true).
Proof.
  unfold applyOverrides. split; [apply length_map|].
  intros i it Hi. exists (overrideItem o it). split.
  - rewrite nth_error_map, Hi. reflexivity.
  - apply overrideItem_frame.
Qed.

Lemma applyOverrides_frame_witness :
  let items := [listed (packItem "Clothes" "Hat" (Fin 1) "checked");
                listed (packItem "Misc" "Pillow" (Fin 1) "checked")] in
  let o : gmap string string := {[ "Clothes__Hat"%string := "carryOn"%string ]} in
  exists it',
    nth_error (applyOverrides items o) 0 = Some it' /\
    listedCategory it' = "Clothes"%string /\
    listedName it' = "Hat"%string /\
    listedQuantity it' = Fin 1 /\
    (listedBag it' <> BagString "checked" ->
     is_Some (o !! "Clothes__Hat"%string)
     \/ inheritsProperty "Clothes__Hat" = true).
Proof.
  intros items o.
  exact (proj2 (applyOverrides_frame items o) 0%nat
           (listed (packItem "Clothes" "Hat" (Fin 1) "checked")) eq_refl).
Defined.

(** X10: an item whose key the map holds with a non-empty bag ends up in that
    bag, whatever bag the engine gave it. *)
Theorem applyOverrides_forced (items : list ListedItem) (o : gmap string string)
    (it' : ListedItem) (b : string) :
  In it' (applyOverrides items o) ->
  o !! stableKey it' = Some b -> truthy b = true ->
  listedBag it' = BagString b.
Proof.
  unfold applyOverrides. intros Hin Hk Hb.
  apply List.in_map_iff in Hin. destruct Hin as (it & <- & _).
  rewrite stableKey_overrideItem in Hk.
  unfold overrideItem. cbv zeta. rewrite (getProperty_own _ _ _ Hk), Hb. reflexivity.
Qed.

Lemma applyOverrides_forced_witness :
  listedBag (withBag (listed (packItem "Clothes" "Hat" (Fin 1) "checked"))
               (BagString "carryOn"))
  = BagString "carryOn".
Proof.
  apply (applyOverrides_forced
           [listed (packItem "Clothes" "Hat" (Fin 1) "checked");
            listed (packItem "Misc" "Pillow" (Fin 1) "checked")]
           {[ "Clothes__Hat"%string := "carryOn"%string ]}).
  - left. reflexivity.
  - reflexivity.
  - reflexivity.
Defined.

(** X11: on a list in which no item's key is a property name of
    [Object.prototype], a map that holds none of the items' keys, the empty
    map in particular, leaves the list as it is; so the empty map leaves
    every list of the engine as it is. *)
Theorem applyOverrides_no_match (items : list ListedItem) (o : gmap string string) :
  Forall (fun it => keyInherited it = false) items ->
  (forall it, In it items -> o !! stableKey it = None) ->
  applyOverrides items o = items /\
  forall (localeCompare : string -> string -> Z) (state : State),
    applyOverrides (map listed (generatePackingList localeCompare state)) ∅
    = map listed (generatePackingList localeCompare state).
Proof.
  assert (Hid : forall l (m : gmap string string),
            Forall (fun it => keyInherited it = false) l ->
            (forall it, In it l -> m !! stableKey it = None) ->
            applyOverrides l m = l).
  { intros l m Hkeys H. unfold applyOverrides.
    rewrite (List.map_ext_in _ (fun it => it)); [apply List.map_id|].
    intros it Hit. apply overrideItem_untouched; [apply H, Hit|].
    exact (proj1 (List.Forall_forall _ _) Hkeys _ Hit). }
  intros Hkeys H. split; [apply Hid; assumption|].
  intros lc state. apply Hid; [apply generatePackingList_keys|].
  intros it _. apply lookup_empty.
Qed.

Lemma applyOverrides_no_match_witness :
  applyOverrides [listed (packItem "Clothes" "Hat" (Fin 1) "checked")] ∅
  = [listed (packItem "Clothes" "Hat" (Fin 1) "checked")].
Proof.
  apply (applyOverrides_no_match [listed (packItem "Clothes" "Hat" (Fin 1) "checked")] ∅).
  - repeat constructor.
  - intros it _. apply lookup_empty.
Defined.

(** X12: on a list in which no item's key is a property name of
    [Object.prototype], applying [o1] and then [o2] is applying their union
    with [o2] taking precedence, provided [o2] holds no empty bag. *)
Theorem applyOverrides_union (items : list ListedItem) (o1 o2 : gmap string string) :
  Forall (fun it => keyInherited it = false) items ->
  (forall k b, o2 !! k = Some b -> truthy b = true) ->
  applyOverrides (applyOverrides items o1) o2 = applyOverrides items (o2 ∪ o1).
Proof.
  intros Hkeys Htruthy. unfold applyOverrides. rewrite List.map_map.
  apply List.map_ext_in. intros it Hit.
  pose proof (proj1 (List.Forall_forall _ _) Hkeys _ Hit) as Hi.
  unfold keyInherited in Hi.
  destruct (o2 !! stableKey it) as [b2|] eqn:H2.
  - transitivity (withBag it (BagString b2)).
    + assert (Hkey : o2 !! stableKey (overrideItem o1 it) = Some b2)
        by (rewrite stableKey_overrideItem; exact H2).
      unfold overrideItem at 1. cbv zeta.
      rewrite (getProperty_own _ _ _ Hkey), (Htruthy _ _ H2).
      unfold overrideItem. cbv zeta.
      destruct (getProperty o1 (stableKey it)) as [b1|p|]; [|reflexivity..].
      destruct (truthy b1); reflexivity.
    + unfold overrideItem. cbv zeta.
      rewrite (getProperty_own _ _ _ (lookup_union_Some_l _ _ _ _ H2)), (Htruthy _ _ H2).
      reflexivity.
  - rewrite overrideItem_untouched
      by (rewrite stableKey_overrideItem; assumption).
    unfold overrideItem, getProperty. cbv zeta.
    rewrite (lookup_union_r _ _ _ H2). reflexivity.
Qed.

Lemma applyOverrides_union_witness :
  let items := [listed (packItem "Clothes" "Hat" (Fin 1) "checked")] in
  let o1 : gmap string string := {[ "Clothes__Hat"%string := "carryOn"%string ]} in
  let o2 : gmap string string := {[ "Clothes__Hat"%string := "checked"%string ]} in
  applyOverrides (applyOverrides items o1) o2 = applyOverrides items (o2 ∪ o1).
Proof.
  intros items o1 o2. apply applyOverrides_union.
  - repeat constructor.
  - intros k b Hk. apply lookup_singleton_Some in Hk. destruct Hk as [_ <-]. reflexivity.
Defined.

(** ** The handlers around the list *)

Lemma change_after_overrides (base : list ListedItem) (o : gmap string string)
    (k b : string) :
  truthy b = true ->
  map (fun it => if String.eqb (stableKey it) k then withBag it (BagString b) else it)
    (applyOverrides base o)
  = applyOverrides base (<[k := b]> o).
Proof.
  intros Hb. unfold applyOverrides. rewrite List.map_map.
  apply List.map_ext. intros it. rewrite stableKey_overrideItem.
  destruct (String.eqb_spec (stableKey it) k) as [<-|Hne].
  - transitivity (withBag it (BagString b)).
    + unfold overrideItem. cbv zeta.
      destruct (getProperty o (stableKey it)) as [b1|p|]; [|reflexivity..].
      destruct (truthy b1); reflexivity.
    + unfold overrideItem. cbv zeta.
      rewrite (getProperty_own _ _ _ (lookup_insert_eq o (stableKey it) b)), Hb.
      reflexivity.
  - unfold overrideItem, getProperty. cbv zeta.
    rewrite lookup_insert_ne by congruence. reflexivity.
Qed.

(** X13: generating puts the list on screen in step with the overrides, and
    moving an item kind to a (non-empty) bag keeps it so: the list after
    [changeBagOverride] is the list a regeneration under the new overrides
    would show.  Both handlers clear the packed marks and their stored copy,
    and [changeBagOverride] stores the new overrides. *)
Theorem changeBagOverride_inSync (localeCompare : string -> string -> Z)
    (state : State) (app : AppState) (k bag : string) :
  truthy bag = true ->
  inSync localeCompare state (onGenerate localeCompare state app) /\
  (inSync localeCompare state app ->
   inSync localeCompare state (changeBagOverride k bag app)) /\
  bagOverrides (changeBagOverride k bag app) !! k = Some bag /\
  storedOverrides (changeBagOverride k bag app)
    = Some (bagOverrides (changeBagOverride k bag app)) /\
  checkedState (changeBagOverride k bag app) = ∅ /\
  storedChecked (changeBagOverride k bag app) = None.
Proof.
  intros Hb. split; [reflexivity|]. split.
  - unfold inSync. intros Hsync. cbn [generated bagOverrides changeBagOverride].
    rewrite Hsync. apply change_after_overrides, Hb.
  - cbn [bagOverrides storedOverrides checkedState storedChecked changeBagOverride].
    rewrite lookup_insert_eq. auto.
Qed.

Lemma changeBagOverride_inSync_witness :
  let app := onGenerate codeUnitCompare rainyTrip
               (mkApp ∅ [] ∅ false None None) in
  inSync codeUnitCompare rainyTrip (changeBagOverride "Clothes__Scarf" "carryOn" app).
Proof.
  intros app.
  destruct (changeBagOverride_inSync codeUnitCompare rainyTrip app
              "Clothes__Scarf" "carryOn" eq_refl) as (_ & H & _).
  apply H.
  exact (proj1 (changeBagOverride_inSync codeUnitCompare rainyTrip
                  (mkApp ∅ [] ∅ false None None) "Clothes__Scarf" "carryOn" eq_refl)).
Defined.

(** X14: marking an item flips its mark and no other; doing it twice gives
    back every mark; the stored copy follows the state. *)
Theorem toggleChecked_marks (id : string) (app : AppState) :
  isChecked (checkedState (toggleChecked id app)) id
    = negb (isChecked (checkedState app) id) /\
  (forall id', id' <> id ->
     isChecked (checkedState (toggleChecked id app)) id'
       = isChecked (checkedState app) id') /\
  (forall id',
     isChecked (checkedState (toggleChecked id (toggleChecked id app))) id'
       = isChecked (checkedState app) id') /\
  storedChecked (toggleChecked id app) = Some (checkedState (toggleChecked id app)).
Proof.
  assert (H1 : forall a, isChecked (checkedState (toggleChecked id a)) id
                         = negb (isChecked (checkedState a) id)).
  { intros a. unfold isChecked at 1. cbn [checkedState toggleChecked].
    rewrite (getProperty_own _ _ _ (lookup_insert_eq _ id _)). reflexivity. }
  assert (H2 : forall a id', id' <> id ->
                 isChecked (checkedState (toggleChecked id a)) id'
                 = isChecked (checkedState a) id').
  { intros a id' Hne. unfold isChecked, getProperty. cbn [checkedState toggleChecked].
    rewrite lookup_insert_ne by congruence. reflexivity. }
  split; [apply H1|]. split; [apply H2|]. split; [|reflexivity].
  intros id'. destruct (String.eqb_spec id' id) as [->|Hne].
  - rewrite !H1. apply negb_involutive.
  - rewrite !H2 by exact Hne. reflexivity.
Qed.

(** ** Grouping by category *)

Lemma Map_get_set_same {V : Type} (k : string) (v : V) (m : JsMap V) :
  Map_get k (Map_set k v m) = Some v.
Proof.
  induction m as [|[k' u] m IH]; simpl.
  - rewrite String.eqb_refl. reflexivity.
  - destruct (String.eqb_spec k' k) as [->|Hne]; simpl.
    + rewrite String.eqb_refl. reflexivity.
    + destruct (String.eqb_spec k' k); [contradiction | exact IH].
Qed.

Lemma Map_get_set_other {V : Type} (k k0 : string) (v : V) (m : JsMap V) :
  k0 <> k -> Map_get k0 (Map_set k v m) = Map_get k0 m.
Proof.
  intros Hne. induction m as [|[k' u] m IH]; simpl.
  - destruct (String.eqb_spec k k0); [congruence | reflexivity].
  - destruct (String.eqb_spec k' k) as [->|Hk]; simpl.
    + destruct (String.eqb_spec k k0); [congruence | reflexivity].
    + destruct (String.eqb_spec k' k0); [reflexivity | exact IH].
Qed.

Lemma Map_set_NoDup {V : Type} (k : string) (v : V) (m : JsMap V) :
  List.NoDup (Map_keys m) -> List.NoDup (Map_keys (Map_set k v m)).
Proof.
  intros Hn. destruct (Map_get k m) as [w|] eqn:Hget.
  - rewrite (Map_set_present_keys _ _ _ _ Hget). exact Hn.
  - rewrite Map_set_absent by exact Hget.
    unfold Map_keys. rewrite List.map_app. simpl.
    apply Map_get_None in Hget.
    apply List.NoDup_app; [exact Hn | constructor; [intros [] | constructor] |].
    intros a Ha [<-|[]]. exact (Hget Ha).
Qed.

Lemma ofCategory_snoc (c : string) (l : list PackingItem) (it : PackingItem) :
  ofCategory c (l ++ [it]) =
  ofCategory c l ++ (if String.eqb (category it) c then [it] else []).
Proof. unfold ofCategory. rewrite List.filter_app. reflexivity. Qed.

Lemma groupStep_groupsOf (m : JsMap (list PackingItem)) (seen : list PackingItem)
    (it : PackingItem) :
  groupsOf m seen -> groupsOf (groupStep m it) (seen ++ [it]).
Proof.
  intros [Hn Hget]. unfold groupStep, Map_has.
  set (m1 := if negb match Map_get (category it) m with Some _ => true | None => false end
             then Map_set (category it) [] m else m).
  assert (Hn1 : List.NoDup (Map_keys m1)).
  { unfold m1. destruct (Map_get (category it) m); simpl; [exact Hn|].
    apply Map_set_NoDup, Hn. }
  assert (H1 : Map_get (category it) m1 = Some (ofCategory (category it) seen)).
  { unfold m1. pose proof (Hget (category it)) as Hc.
    destruct (ofCategory (category it) seen) eqn:Hrows; rewrite Hc; simpl.
    - apply Map_get_set_same.
    - exact Hc. }
  assert (H2 : forall c, c <> category it -> Map_get c m1 = Map_get c m).
  { intros c Hc. unfold m1. destruct (Map_get (category it) m); simpl; [reflexivity|].
    apply Map_get_set_other, Hc. }
  rewrite H1. split; [apply Map_set_NoDup, Hn1|].
  intros c. rewrite ofCategory_snoc.
  destruct (String.eqb_spec (category it) c) as [<-|Hne].
  - rewrite Map_get_set_same.
    destruct (ofCategory (category it) seen); reflexivity.
  - rewrite Map_get_set_other by congruence.
    rewrite H2 by congruence. rewrite List.app_nil_r. apply Hget.
Qed.

Lemma fold_groupStep_groupsOf (l seen : list PackingItem) (m : JsMap (list PackingItem)) :
  groupsOf m seen -> groupsOf (fold_left groupStep l m) (seen ++ l).
Proof.
  revert seen m. induction l as [|it l IH]; intros seen m Hm; simpl.
  - rewrite List.app_nil_r. exact Hm.
  - replace (seen ++ it :: l) with ((seen ++ [it]) ++ l)
      by (rewrite <- List.app_assoc; reflexivity).
    apply IH, groupStep_groupsOf, Hm.
Qed.

Lemma groupByCategory_groupsOf (items : list PackingItem) :
  groupsOf (groupByCategory items) items.
Proof.
  apply (fold_groupStep_groupsOf items [] []).
  split; [constructor | reflexivity].
Qed.

(** X15: [groupByCategory] files under each category exactly the items of that
    category, in list order; a category no item has is absent from the map,
    and no category is listed twice. *)
Theorem groupByCategory_lookup (items : list PackingItem) :
  List.NoDup (Map_keys (groupByCategory items)) /\
  forall c, Map_get c (groupByCategory items) =
            match ofCategory c items with
            | [] => None
            | rows => Some rows
            end.
Proof. exact (groupByCategory_groupsOf items). Qed.

Lemma concat_Map_set_push (c : string) (rows : list PackingItem) (it : PackingItem)
    (m : JsMap (list PackingItem)) :
  Map_get c m = Some rows ->
  Permutation (List.concat (Map_values (Map_set c (rows ++ [it]) m)))
    (it :: List.concat (Map_values m)).
Proof.
  induction m as [|[k u] m IH]; simpl; [discriminate|].
  destruct (String.eqb_spec k c) as [->|Hne].
  - intros [= ->]. simpl. rewrite <- List.app_assoc. simpl.
    symmetry. apply Permutation_middle.
  - intros H. simpl. rewrite (IH H). symmetry. apply Permutation_middle.
Qed.

Lemma groupStep_concat (m : JsMap (list PackingItem)) (it : PackingItem) :
  Permutation (List.concat (Map_values (groupStep m it)))
    (it :: List.concat (Map_values m)).
Proof.
  unfold groupStep, Map_has.
  destruct (Map_get (category it) m) as [rows|] eqn:Hget; simpl.
  - rewrite Hget. apply concat_Map_set_push, Hget.
  - rewrite Map_get_set_same.
    rewrite (concat_Map_set_push _ [] it _ (Map_get_set_same _ _ _)).
    constructor. rewrite Map_set_absent by exact Hget.
    unfold Map_values. rewrite List.map_app, List.concat_app. simpl.
    rewrite List.app_nil_r. reflexivity.
Qed.

(** X16: grouping loses and repeats nothing: the groups together hold each item
    of the list once. *)
Theorem groupByCategory_partition (items : list PackingItem) :
  Permutation (List.concat (Map_values (groupByCategory items))) items.
Proof.
  unfold groupByCategory.
  assert (H : forall l m,
             Permutation (List.concat (Map_values (fold_left groupStep l m)))
               (List.concat (Map_values m) ++ l)).
  { induction l as [|it l IH]; intros m; simpl.
    - rewrite List.app_nil_r. reflexivity.
    - rewrite IH, groupStep_concat. simpl. apply Permutation_middle. }
  rewrite H. reflexivity.
Qed.

(** ** The export text *)


Lemma filter_filter_implied {A : Type} (p q : A -> bool) (l : list A) :
  (forall x, p x = true -> q x = true) ->
  List.filter p (List.filter q l) = List.filter p l.
Proof.
  intros Himp. induction l as [|x l IH]; simpl; [reflexivity|].
  destruct (q x) eqn:Hq; simpl.
  - rewrite IH. reflexivity.
  - destruct (p x) eqn:Hp; [|exact IH].
    rewrite (Himp x Hp) in Hq. discriminate Hq.
Qed.

Section ExportFacts.

Variable showNumber : number Z -> string.





(** X18: the export prints the items of the two bags and no other: an item
    whose bag is neither "carryOn" nor "checked" leaves no trace in it. *)
Theorem buildExportText_two_bags (items : list PackingItem) :
  buildExportText showNumber items =
  buildExportText showNumber (List.filter inExportedBag items).
Proof.
  unfold buildExportText. cbv zeta.
  rewrite !filter_filter_implied; [reflexivity | |];
    intros x Hx; unfold inExportedBag; rewrite Hx; auto using orb_true_r.
Qed.

End ExportFacts.

(** ** The text handed to the print window *)

Lemma printSafe_escapeEach (text : string) : printSafe text = escapeEach text.
Proof.
  unfold printSafe. induction text as [|d text IH]; [reflexivity|].
  cbn [escapeEach]. rewrite <- IH. unfold escapeChar.
  cbn [replaceAllChar].
  destruct (Ascii.eqb d "&") eqn:E1.
  { apply Ascii.eqb_eq in E1. subst. reflexivity. }
  cbn [replaceAllChar]. destruct (Ascii.eqb d "<") eqn:E2.
  { apply Ascii.eqb_eq in E2. subst. reflexivity. }
  cbn [replaceAllChar]. destruct (Ascii.eqb d ">") eqn:E3.
  { apply Ascii.eqb_eq in E3. subst. reflexivity. }
  cbn [replaceAllChar]. destruct (Ascii.eqb d "010") eqn:E4; reflexivity.
Qed.

(** X19: the four replacements of [printList] in their order amount to one
    pass that turns [&], [<], [>] and the line feed into [&amp;], [&lt;],
    [&gt;] and [<br/>] and keeps every other character: an entity written by
    an earlier replacement is not escaped again by a later one.  The result
    has no markup but line breaks. *)
Theorem printSafe_one_pass (text : string) :
  printSafe text = escapeEach text /\ onlyBreaks (printSafe text) = true.
Proof.
  split; [apply printSafe_escapeEach|].
  rewrite printSafe_escapeEach.
  induction text as [|d text IH]; [reflexivity|].
  cbn [escapeEach]. unfold escapeChar.
  destruct (Ascii.eqb d "&") eqn:E1; [exact IH|].
  destruct (Ascii.eqb d "<") eqn:E2; [exact IH|].
  destruct (Ascii.eqb d ">") eqn:E3; [exact IH|].
  destruct (Ascii.eqb d "010") eqn:E4; [exact IH|].
  change (onlyBreaks (String d (escapeEach text)) = true).
  cbn [onlyBreaks]. rewrite E2, E3. exact IH.
Qed.

Lemma escapeChar_prefix_inj (c d : ascii) (r1 r2 : string) :
  (escapeChar c ++ r1)%string = (escapeChar d ++ r2)%string -> c = d /\ r1 = r2.
Proof.
  unfold escapeChar.
  destruct (Ascii.eqb_spec c "&") as [->|C1]; [|
  destruct (Ascii.eqb_spec c "<") as [->|C2]; [|
  destruct (Ascii.eqb_spec c ">") as [->|C3]; [|
  destruct (Ascii.eqb_spec c "010") as [->|C4]]]];
  (destruct (Ascii.eqb_spec d "&") as [->|D1]; [|
   destruct (Ascii.eqb_spec d "<") as [->|D2]; [|
   destruct (Ascii.eqb_spec d ">") as [->|D3]; [|
   destruct (Ascii.eqb_spec d "010") as [->|D4]]]]);
  intros H; cbv beta iota fix delta [String.append] in H; try discriminate H;
  try (injection H as H; subst; split; congruence);
  try (injection H as H1 H2; subst; split; congruence).
Qed.

Lemma escapeChar_nonempty (c : ascii) (r : string) :
  (escapeChar c ++ r)%string <> EmptyString.
Proof.
  unfold escapeChar.
  destruct (Ascii.eqb c "&"); [discriminate|].
  destruct (Ascii.eqb c "<"); [discriminate|].
  destruct (Ascii.eqb c ">"); [discriminate|].
  destruct (Ascii.eqb c "010"); discriminate.
Qed.

(** X20: distinct texts give distinct print texts: escaping loses nothing. *)
Theorem printSafe_injective (s t : string) :
  printSafe s = printSafe t -> s = t.
Proof.
  rewrite !printSafe_escapeEach. revert t.
  induction s as [|c s IH]; intros [|d t]; cbn [escapeEach]; intros H.
  - reflexivity.
  - symmetry in H. exfalso. exact (escapeChar_nonempty _ _ H).
  - exfalso. exact (escapeChar_nonempty _ _ H).
  - apply escapeChar_prefix_inj in H. destruct H as [-> H].
    rewrite (IH _ H). reflexivity.
Qed.

Lemma printSafe_injective_witness :
  ("a<b" : string) = ("a<b" : string).
Proof. apply printSafe_injective. reflexivity. Defined.

(** ** Quantities in the generated list *)

Lemma withKey_app (k : string) (l1 l2 : list PackingItem) :
  withKey k (l1 ++ l2) = withKey k l1 ++ withKey k l2.
Proof. apply List.filter_app. Qed.

Lemma withKey_none (k : string) (l : list PackingItem) :
  Forall (fun it => String.eqb (mergeKey it) k = false) l -> withKey k l = [].
Proof.
  induction 1 as [|x l Hx Hl IH]; [reflexivity|].
  unfold withKey in *. simpl. rewrite Hx. exact IH.
Qed.

Lemma withKey_cleaned (k : string) (l : list PackingItem) :
  withKey k (cleaned l) = cleaned (withKey k l).
Proof.
  unfold withKey, cleaned. induction l as [|x l IH]; simpl; [reflexivity|].
  destruct (num_pos (quantity x)) eqn:Hp, (String.eqb (mergeKey x) k) eqn:Hk;
    simpl; rewrite ?Hp, ?Hk, IH; reflexivity.
Qed.

(** Rewrites to [[]] every chunk of the goal that holds no item of the key. *)
Ltac drop_chunks :=
  rewrite ?withKey_app;
  repeat match goal with
         | |- context [withKey ?k ?l] =>
             rewrite (withKey_none k l)
               by (split_items;
                   try (unfold clothesBlock, addWeatherClothes; cbv zeta; split_items);
                   reflexivity)
         end.

Lemma addWeatherClothes_withKey (k : string) (items : list PackingItem)
    (minT maxT : option Q) (rain sun : bool) :
  withKey k (addWeatherClothes items minT maxT rain sun)
  = withKey k items ++ withKey k (addWeatherClothes [] minT maxT rain sun).
Proof.
  unfold addWeatherClothes. cbv zeta. rewrite !withKey_app.
  rewrite <- !List.app_assoc. reflexivity.
Qed.

Lemma rawItems_underwear (state : State) (nm : string) :
  In nm ["Underwear"; "Socks"; "Tops"]%string ->
  0 < days (mathsOf state) ->
  withKey ("checked__Clothes__" ++ nm)%string (rawItems state)
  = [packItem "Clothes" nm (setsNeeded (mathsOf state)) "checked"].
Proof.
  intros Hnm Hd. apply Z.ltb_lt in Hd.
  unfold rawItems. cbv zeta. fold (weatherOf state).
  change (computeClothesMath _ _ (washes state) (includeSpareSet state))
    with (mathsOf state).
  rewrite Hd. unfold clothesBlock. cbv zeta.
  rewrite ?withKey_app, addWeatherClothes_withKey, ?withKey_app.
  destruct Hnm as [<-|[<-|[<-|[]]]]; drop_chunks; reflexivity.
Qed.

Lemma keyTotal_single (k : string) (l : list PackingItem) (it : PackingItem) :
  withKey k l = [it] -> num_pos (quantity it) = true ->
  keyTotal k (cleaned l) = quantity it.
Proof.
  intros Hk Hp. unfold keyTotal. rewrite withKey_cleaned, Hk.
  unfold cleaned. simpl. rewrite Hp. simpl. apply num_add_zero_l.
Qed.

Lemma item_eq (a b : PackingItem) :
  sameTriple a b -> quantity a = quantity b -> a = b.
Proof.
  destruct a, b. unfold sameTriple. simpl. intros (-> & -> & ->) ->. reflexivity.
Qed.

Section Quantities.

Variable localeCompare : string -> string -> Z.

(** A pushed item of positive quantity shows in the list under its bag,
    category and name with the total pushed under its key. *)
Lemma generatePackingList_total (state : State) (i : PackingItem) :
  In i (rawItems state) -> num_pos (quantity i) = true ->
  In (withQuantity i (keyTotal (mergeKey i) (cleaned (rawItems state))))
    (generatePackingList localeCompare state).
Proof.
  intros Hi Hp.
  destruct (consolidate_complete localeCompare _ _ (rawItems_plain state) Hi Hp)
    as (o & Ho & Hs).
  assert (Hq : quantity o = keyTotal (mergeKey o) (cleaned (rawItems state))).
  { unfold generatePackingList, consolidate in Ho.
    apply (Permutation_in _ (sortItems_perm localeCompare _)) in Ho.
    apply uniqItemsByBag_totals; [apply cleaned_positive | exact Ho]. }
  assert (Hk : mergeKey o = mergeKey i).
  { destruct Hs as (Hb & Hc & Hn). unfold mergeKey. rewrite Hb, Hc, Hn. reflexivity. }
  rewrite Hk in Hq.
  replace (withQuantity i _) with o; [exact Ho|].
  apply item_eq; [exact Hs | exact Hq].
Qed.

(** An item pushed once under its key shows in the list as it was pushed. *)
Lemma generatePackingList_exact (state : State) (i : PackingItem) :
  withKey (mergeKey i) (rawItems state) = [i] -> num_pos (quantity i) = true ->
  In i (generatePackingList localeCompare state).
Proof.
  intros Hk Hp.
  assert (Hi : In i (rawItems state)).
  { assert (H : In i (withKey (mergeKey i) (rawItems state))) by (rewrite Hk; left; reflexivity).
    unfold withKey in H. apply List.filter_In in H. exact (proj1 H). }
  pose proof (generatePackingList_total state i Hi Hp) as H.
  rewrite (keyTotal_single _ _ _ Hk Hp), withQuantity_same in H. exact H.
Qed.

(** X21: the baseline is always there: whatever the trip, the list holds each
    of the baseline items in its default bag with quantity 1. *)
Theorem baseline_always (state : State) :
  Forall (fun it => In it (generatePackingList localeCompare state)) baselineItems.
Proof.
  apply List.Forall_forall. intros it Hit.
  apply generatePackingList_exact.
  - unfold rawItems. cbv zeta.
    unfold baselineItems in Hit. simpl in Hit.
    repeat (destruct Hit as [<-|Hit]; [drop_chunks; reflexivity|]).
    destruct Hit.
  - unfold baselineItems in Hit. simpl in Hit.
    repeat (destruct Hit as [<-|Hit]; [reflexivity|]). destruct Hit.
Qed.

(** X22: on a trip of at least one day with a non-negative integer wash
    count, the list holds underwear, socks and tops in the checked bag, each
    in quantity [setsNeeded], which is at least 1. *)
Theorem clothing_sets_quantity (state : State) :
  supportedWashes (washes state) -> 0 < days (mathsOf state) ->
  (exists n, setsNeeded (mathsOf state) = Fin n /\ 1 <= n) /\
  In (packItem "Clothes" "Underwear" (setsNeeded (mathsOf state)) "checked")
    (generatePackingList localeCompare state) /\
  In (packItem "Clothes" "Socks" (setsNeeded (mathsOf state)) "checked")
    (generatePackingList localeCompare state) /\
  In (packItem "Clothes" "Tops" (setsNeeded (mathsOf state)) "checked")
    (generatePackingList localeCompare state).
Proof.
  intros Hw Hd.
  assert (Hn : exists n, setsNeeded (mathsOf state) = Fin n /\ 1 <= n).
  { unfold mathsOf in *. cbv zeta in *.
    set (w := computeOverallTripWindow (segments state)) in *.
    destruct (computeClothesMath_supported (startISO w) (endISO w) (washes state)
                (includeSpareSet state) Hw) as (_ & Hs & H0).
    eexists. split; [exact Hs|].
    unfold setsFor. apply Z.ltb_lt in Hd. rewrite Hd. apply Z.ltb_lt in Hd.
    match goal with |- 1 <= ?q / ?c + _ => assert (1 <= q / c) end.
    { apply Z.div_le_lower_bound; lia. }
    destruct (includeSpareSet state); lia. }
  split; [exact Hn|].
  destruct Hn as (n & Hn & H1).
  assert (Hpos : num_pos (setsNeeded (mathsOf state)) = true).
  { rewrite Hn. simpl. apply Z.ltb_lt. lia. }
  repeat split; apply generatePackingList_exact; try exact Hpos;
    apply (rawItems_underwear state _); simpl; auto.
Qed.

End Quantities.

Lemma clothing_sets_quantity_witness :
  In (packItem "Clothes" "Underwear" (Fin 4) "checked")
    (generatePackingList codeUnitCompare rainyTrip).
Proof.
  assert (Hw : supportedWashes (washes rainyTrip)) by (simpl; lia).
  exact (proj1 (proj2 (clothing_sets_quantity codeUnitCompare rainyTrip Hw eq_refl))).
Defined.

(** ** The two hat rules *)

Lemma rawItems_hat (state : State) :
  withKey "checked__Clothes__Hat" (rawItems state)
  = (if weatherHat state then [packItem "Clothes" "Hat" (Fin 1) "checked"] else [])
    ++ (if pokemonGoNeeded state then [packItem "Clothes" "Hat" (Fin 1) "checked"] else []).
Proof.
  unfold weatherHat, rawItems. cbv zeta. fold (weatherOf state).
  change (computeClothesMath _ _ (washes state) (includeSpareSet state))
    with (mathsOf state).
  drop_chunks.
  destruct (0 <? days (mathsOf state)); cbv iota.
  - unfold clothesBlock. cbv zeta. rewrite addWeatherClothes_withKey.
    unfold addWeatherClothes. cbv zeta. drop_chunks.
    destruct (overallMax (weatherOf state)) as [m|].
    + destruct (Qle_bool 32 m).
      * destruct (pokemonGoNeeded state); reflexivity.
      * destruct (Qle_bool 28 m), (pokemonGoNeeded state); reflexivity.
    + destruct (pokemonGoNeeded state); reflexivity.
  - destruct (pokemonGoNeeded state); reflexivity.
Qed.

(** X23: the plain "Hat" is pushed by two rules, the weather rule (a trip of
    at least one day whose maximum is 32 or more) and the Pokémon GO rule;
    the list holds it with the number of rules that fire as its quantity,
    and does not hold it when neither fires. *)
Theorem hat_quantity (localeCompare : string -> string -> Z) (state : State) :
  let out := generatePackingList localeCompare state in
  match weatherHat state, pokemonGoNeeded state with
  | true, true => In (packItem "Clothes" "Hat" (Fin 2) "checked") out
  | true, false | false, true => In (packItem "Clothes" "Hat" (Fin 1) "checked") out
  | false, false => ~ hasItem out "Clothes" "Hat" "checked"
  end.
Proof.
  intros out. pose proof (rawItems_hat state) as Hk.
  assert (Hin : forall l, withKey "checked__Clothes__Hat" (rawItems state)
                          = packItem "Clothes" "Hat" (Fin 1) "checked" :: l ->
                          In (packItem "Clothes" "Hat" (Fin 1) "checked") (rawItems state)).
  { intros l Hl.
    assert (H : In (packItem "Clothes" "Hat" (Fin 1) "checked")
                  (withKey "checked__Clothes__Hat" (rawItems state)))
      by (rewrite Hl; left; reflexivity).
    unfold withKey in H. apply List.filter_In in H. exact (proj1 H). }
  destruct (weatherHat state), (pokemonGoNeeded state); cbv iota in Hk; cbn [app] in Hk.
  - pose proof (generatePackingList_total localeCompare state _ (Hin _ Hk) eq_refl) as H.
    unfold keyTotal in H.
    change (mergeKey (packItem "Clothes" "Hat" (Fin 1) "checked"))
      with "checked__Clothes__Hat"%string in H.
    rewrite withKey_cleaned, Hk in H. exact H.
  - apply generatePackingList_exact; [exact Hk | reflexivity].
  - apply generatePackingList_exact; [exact Hk | reflexivity].
  - intros (o & Ho & Hc & Hn & Hb).
    destruct (consolidate_sound localeCompare _ _ Ho) as (i & Hi & Hbag & Hcat & Hname).
    assert (H : In i (withKey "checked__Clothes__Hat" (rawItems state))).
    { unfold withKey. apply List.filter_In. split; [exact Hi|].
      unfold mergeKey. rewrite <- Hbag, <- Hcat, <- Hname, Hb, Hc, Hn. reflexivity. }
    rewrite Hk in H. destruct H.
Qed.

(** ** Flags that do nothing *)

(** X24: while no segment asks for Pokémon GO the four Pokémon GO sub-flags
    are inert: the list is the same whatever they are. *)
Theorem pokemon_subflags_inert (localeCompare : string -> string -> Z) (state : State)
    (alt egg trade partner : bool) :
  pokemonGoNeeded state = false ->
  generatePackingList localeCompare (withSubFlags state alt egg trade partner)
  = generatePackingList localeCompare state.
Proof.
  intros H. unfold generatePackingList. f_equal.
  unfold rawItems.
  cbn [segments washes includeSpareSet pokemonGoNeeded altAccount eggWalker tradeList
       partnerPokemon isInternational isJapanTrip bringTablet bringWorkLaptop withSubFlags].
  rewrite H. reflexivity.
Qed.

Lemma pokemon_subflags_inert_witness :
  generatePackingList codeUnitCompare (withSubFlags rainyTrip true true true true)
  = generatePackingList codeUnitCompare rainyTrip.
Proof. apply pokemon_subflags_inert. reflexivity. Defined.

(** ** Trips without dates *)

Lemma rawItems_no_clothes (state : State) :
  days (mathsOf state) = 0 ->
  Forall (fun it => category it = "Clothes"%string ->
                    name it = "Hat"%string /\ pokemonGoNeeded state = true)
    (rawItems state).
Proof.
  intros Hd. unfold rawItems. cbv zeta.
  change (computeClothesMath _ _ (washes state) (includeSpareSet state))
    with (mathsOf state).
  rewrite Hd. change (0 <? 0) with false. cbv iota.
  split_items; simpl; intros H; first [discriminate H | split; reflexivity].
Qed.

(** X25: when no segment has a start date, or none has an end date, the trip
    counts zero days and the list holds no clothes, except the hat of the
    Pokémon GO rule. *)
Theorem undated_trip_no_clothes (localeCompare : string -> string -> Z) (state : State) :
  nonEmptyStarts (segments state) = [] \/ nonEmptyEnds (segments state) = [] ->
  days (mathsOf state) = 0 /\
  forall o, In o (generatePackingList localeCompare state) ->
            category o = "Clothes"%string ->
            name o = "Hat"%string /\ pokemonGoNeeded state = true.
Proof.
  intros Hmissing.
  assert (Hd : days (mathsOf state) = 0).
  { unfold mathsOf. cbv zeta. rewrite computeOverallTripWindow_cases.
    destruct Hmissing as [-> | ->]; [reflexivity|].
    destruct (nonEmptyStarts (segments state)); reflexivity. }
  split; [exact Hd|]. intros o Ho Hc.
  destruct (consolidate_sound localeCompare _ _ Ho) as (i & Hi & _ & Hcat & Hname).
  rewrite Hname.
  apply (proj1 (List.Forall_forall _ _) (rawItems_no_clothes state Hd) _ Hi).
  congruence.
Qed.

Lemma undated_trip_no_clothes_witness :
  days (mathsOf japanNotInternational) = 0.
Proof.
  apply (undated_trip_no_clothes codeUnitCompare japanNotInternational).
  left. reflexivity.
Defined.

(** ** Bags and categories of the list *)

Lemma addWeatherClothes_wellPlaced (items : list PackingItem) (minT maxT : option Q)
    (rain sun : bool) :
  Forall (fun it => wellPlaced it = true) items ->
  Forall (fun it => wellPlaced it = true) (addWeatherClothes items minT maxT rain sun).
Proof.
  intros H. unfold addWeatherClothes. cbv zeta. split_items; try exact H; reflexivity.
Qed.

Lemma rawItems_wellPlaced (state : State) :
  Forall (fun it => wellPlaced it = true) (rawItems state).
Proof.
  unfold rawItems. cbv zeta.
  split_items;
    try (unfold clothesBlock; cbv zeta; apply addWeatherClothes_wellPlaced; split_items);
    reflexivity.
Qed.

(** X26: every item of the generated list sits in one of the two bags,
    "carryOn" or "checked", and in one of the engine's seven categories; so
    the export, which prints those two bags, leaves out none of them. *)
Theorem generatePackingList_wellPlaced (localeCompare : string -> string -> Z)
    (state : State) :
  Forall (fun o => wellPlaced o = true) (generatePackingList localeCompare state) /\
  List.filter inExportedBag (generatePackingList localeCompare state)
  = generatePackingList localeCompare state.
Proof.
  assert (H : Forall (fun o => wellPlaced o = true) (generatePackingList localeCompare state)).
  { apply List.Forall_forall. intros o Ho.
    destruct (consolidate_sound localeCompare _ _ Ho) as (i & Hi & Hbag & Hcat & _).
    pose proof (proj1 (List.Forall_forall _ _) (rawItems_wellPlaced state) _ Hi) as Hw.
    unfold wellPlaced, inExportedBag in *. rewrite Hbag, Hcat. exact Hw. }
  split; [exact H|].
  induction H as [|o l Ho Hl IH]; simpl; [reflexivity|].
  unfold wellPlaced in Ho. apply andb_true_iff in Ho. destruct Ho as [Ho _].
  rewrite Ho, IH. reflexivity.
Qed.

(** ** Dates as strings *)

Lemma digit_compare (c c' : ascii) (v v' : Z) :
  digit c = Some v -> digit c' = Some v' ->
  Ascii.compare c c' = (v ?= v') /\ 0 <= v <= 9 /\ 0 <= v' <= 9.
Proof.
  unfold digit, Ascii.compare. cbv zeta.
  destruct ((48 <=? Z.of_N (N_of_ascii c)) && (Z.of_N (N_of_ascii c) <=? 57)) eqn:Hc;
    [|discriminate].
  destruct ((48 <=? Z.of_N (N_of_ascii c')) && (Z.of_N (N_of_ascii c') <=? 57)) eqn:Hc';
    [|discriminate].
  intros [= <-] [= <-].
  apply andb_true_iff in Hc, Hc'. rewrite !Z.leb_le in Hc, Hc'.
  split; [|lia].
  rewrite <- N2Z.inj_compare.
  destruct (Z.compare_spec (Z.of_N (N_of_ascii c)) (Z.of_N (N_of_ascii c'))),
    (Z.compare_spec (Z.of_N (N_of_ascii c) - 48) (Z.of_N (N_of_ascii c') - 48));
    try reflexivity; lia.
Qed.

(** The ten characters of a valid date. *)
Lemma civil_chars (s : string) (y m d : Z) :
  civil s = Some (y, m, d) ->
  exists c0 c1 c2 c3 c5 c6 c8 c9 v0 v1 v2 v3 v5 v6 v8 v9,
    s = String c0 (String c1 (String c2 (String c3 (String "-"
          (String c5 (String c6 (String "-" (String c8 (String c9 EmptyString))))))))) /\
    digit c0 = Some v0 /\ digit c1 = Some v1 /\ digit c2 = Some v2 /\ digit c3 = Some v3 /\
    digit c5 = Some v5 /\ digit c6 = Some v6 /\ digit c8 = Some v8 /\ digit c9 = Some v9 /\
    y = 100 * (10 * v0 + v1) + (10 * v2 + v3) /\ m = 10 * v5 + v6 /\ d = 10 * v8 + v9.
Proof.
  intros H. apply civil_shape in H. destruct H as [H _].
  do 10 (destruct s as [|? s]; [discriminate|]).
  unfold splitYMD in H.
  destruct (Ascii.eqb_spec a3 "-") as [->|]; [|discriminate].
  destruct (Ascii.eqb_spec a6 "-") as [->|]; [|discriminate].
  cbn [andb] in H. unfold digits4, digits2 in H.
  destruct (digit a) as [v0|] eqn:D0; [|discriminate].
  destruct (digit a0) as [v1|] eqn:D1; [|discriminate].
  destruct (digit a1) as [v2|] eqn:D2; [|discriminate].
  destruct (digit a2) as [v3|] eqn:D3; [|discriminate].
  destruct (digit a4) as [v5|] eqn:D5; [|discriminate].
  destruct (digit a5) as [v6|] eqn:D6; [|discriminate].
  destruct (digit a7) as [v8|] eqn:D8; [|discriminate].
  destruct (digit a8) as [v9|] eqn:D9; [|discriminate].
  injection H as <- <- <- ->.
  exists a, a0, a1, a2, a4, a5, a7, a8, v0, v1, v2, v3, v5, v6, v8, v9.
  repeat split; reflexivity || assumption.
Qed.

Ltac order_leaf :=
  split; split; intros Hx;
  first [ discriminate Hx | reflexivity | lia
        | left; lia
        | right; subst; reflexivity
        | exfalso; destruct Hx as [Hx|Hx]; [lia | injection Hx; intros; lia] ].

(** On valid dates the order of the strings is the order of the days. *)
Lemma iso_order (s e : string) (cs ce : Z * Z * Z) :
  civil s = Some cs -> civil e = Some ce ->
  (String.ltb s e = true <-> dateBefore cs ce) /\
  (String.leb s e = true <-> dateBefore cs ce \/ cs = ce).
Proof.
  destruct cs as [[y m] d], ce as [[y' m'] d']. intros Hs He.
  destruct (civil_chars _ _ _ _ Hs)
    as (c0 & c1 & c2 & c3 & c5 & c6 & c8 & c9 & v0 & v1 & v2 & v3 & v5 & v6 & v8 & v9
        & -> & D0 & D1 & D2 & D3 & D5 & D6 & D8 & D9 & -> & -> & ->).
  destruct (civil_chars _ _ _ _ He)
    as (e0 & e1 & e2 & e3 & e5 & e6 & e8 & e9 & w0 & w1 & w2 & w3 & w5 & w6 & w8 & w9
        & -> & E0 & E1 & E2 & E3 & E5 & E6 & E8 & E9 & -> & -> & ->).
  destruct (digit_compare _ _ _ _ D0 E0) as (C0 & ? & ?).
  destruct (digit_compare _ _ _ _ D1 E1) as (C1 & ? & ?).
  destruct (digit_compare _ _ _ _ D2 E2) as (C2 & ? & ?).
  destruct (digit_compare _ _ _ _ D3 E3) as (C3 & ? & ?).
  destruct (digit_compare _ _ _ _ D5 E5) as (C5 & ? & ?).
  destruct (digit_compare _ _ _ _ D6 E6) as (C6 & ? & ?).
  destruct (digit_compare _ _ _ _ D8 E8) as (C8 & ? & ?).
  destruct (digit_compare _ _ _ _ D9 E9) as (C9 & ? & ?).
  unfold String.ltb, String.leb, dateBefore. cbn [String.compare].
  rewrite C0, C1, C2, C3, C5, C6, C8, C9.
  change (Ascii.compare "-" "-") with Eq. cbv iota.
  destruct (Z.compare_spec v0 w0); [|order_leaf..].
  destruct (Z.compare_spec v1 w1); [|order_leaf..].
  destruct (Z.compare_spec v2 w2); [|order_leaf..].
  destruct (Z.compare_spec v3 w3); [|order_leaf..].
  destruct (Z.compare_spec v5 w5); [|order_leaf..].
  destruct (Z.compare_spec v6 w6); [|order_leaf..].
  destruct (Z.compare_spec v8 w8); [|order_leaf..].
  destruct (Z.compare_spec v9 w9); order_leaf.
Qed.

(** X27: among valid dates the lexicographic order of the strings, which the
    window and the membership tests rely on, is the order of the days. *)
Theorem iso_lexicographic_chronological (s e : string) (cs ce : Z * Z * Z) :
  civil s = Some cs -> civil e = Some ce ->
  (String.ltb s e = true <-> dateBefore cs ce) /\
  (String.ltb s e = true <-> timeOf cs < timeOf ce).
Proof.
  intros Hs He. destruct (iso_order s e cs ce Hs He) as [Hlt _].
  split; [exact Hlt|]. rewrite Hlt.
  destruct cs as [[y m] d], ce as [[y' m'] d'].
  apply civil_shape in Hs, He. destruct Hs as [_ Vs], He as [_ Ve].
  unfold timeOf, msPerDay. split.
  - intros H. pose proof (MakeDay_lt _ _ _ _ _ _ Vs Ve H). lia.
  - intros H.
    destruct (Z.lt_total y y') as [Hy|[Hy|Hy]]; [left; exact Hy | |].
    + subst y'. destruct (Z.lt_total m m') as [Hm|[Hm|Hm]]; [right; auto | |].
      * subst m'. destruct (Z.lt_total d d') as [Hd|[Hd|Hd]]; [right; auto | |].
        -- subst d'. lia.
        -- assert (Hb : dateBefore (y, m, d') (y, m, d)) by (right; auto).
           pose proof (MakeDay_lt _ _ _ _ _ _ Ve Vs Hb). lia.
      * assert (Hb : dateBefore (y, m', d') (y, m, d)) by (right; auto).
        pose proof (MakeDay_lt _ _ _ _ _ _ Ve Vs Hb). lia.
    + assert (Hb : dateBefore (y', m', d') (y, m, d)) by (left; exact Hy).
      pose proof (MakeDay_lt _ _ _ _ _ _ Ve Vs Hb). lia.
Qed.

Lemma iso_lexicographic_chronological_witness :
  String.ltb "2024-02-29" "2024-03-01" = true <-> dateBefore (2024, 2, 29) (2024, 3, 1).
Proof.
  exact (proj1 (iso_lexicographic_chronological "2024-02-29" "2024-03-01"
                  (2024, 2, 29) (2024, 3, 1) eq_refl eq_refl)).
Defined.

Lemma In_nonEmptyStarts (segments : list Segment) (x : string) :
  In x (nonEmptyStarts segments) <->
  exists seg, In seg segments /\ startDate seg = x /\ truthy x = true.
Proof.
  unfold nonEmptyStarts. rewrite List.filter_In, List.in_map_iff. split.
  - intros [(seg & <- & Hseg) Ht]. exists seg. auto.
  - intros (seg & Hseg & <- & Ht). split; [exists seg; auto | exact Ht].
Qed.

Lemma In_nonEmptyEnds (segments : list Segment) (x : string) :
  In x (nonEmptyEnds segments) <->
  exists seg, In seg segments /\ endDate seg = x /\ truthy x = true.
Proof.
  unfold nonEmptyEnds. rewrite List.filter_In, List.in_map_iff. split.
  - intros [(seg & <- & Hseg) Ht]. exists seg. auto.
  - intros (seg & Hseg & <- & Ht). split; [exists seg; auto | exact Ht].
Qed.

(** X28: when every segment carries a valid start and a valid end date, the
    overall window is made of valid dates and spans every segment: no
    segment counts more days than the trip. *)
Theorem window_covers_segments (segments : list Segment) (seg : Segment) :
  (forall s, In s segments ->
     civil (startDate s) <> None /\ civil (endDate s) <> None) ->
  In seg segments ->
  civil (startISO (computeOverallTripWindow segments)) <> None /\
  civil (endISO (computeOverallTripWindow segments)) <> None /\
  tripDaysInclusive (startDate seg) (endDate seg)
  <= tripDaysInclusive (startISO (computeOverallTripWindow segments))
       (endISO (computeOverallTripWindow segments)).
Proof.
  intros Hvalid Hseg.
  destruct (Hvalid _ Hseg) as [Vs Ve].
  destruct (civil (startDate seg)) as [cs|] eqn:Hcs; [clear Vs | congruence].
  destruct (civil (endDate seg)) as [ce|] eqn:Hce; [clear Ve | congruence].
  assert (Hs : In (startDate seg) (nonEmptyStarts segments)).
  { apply In_nonEmptyStarts. exists seg. eauto using civil_truthy. }
  assert (He : In (endDate seg) (nonEmptyEnds segments)).
  { apply In_nonEmptyEnds. exists seg. eauto using civil_truthy. }
  rewrite computeOverallTripWindow_cases.
  destruct (nonEmptyStarts segments) as [|a starts] eqn:Estarts; [destruct Hs|].
  destruct (nonEmptyEnds segments) as [|b ends] eqn:Eends; [destruct He|].
  cbn [startISO endISO].
  destruct (reduce_min_isLexMin (a :: starts) ltac:(discriminate)) as [Hin Hmin].
  destruct (reduce_max_isLexMax (b :: ends) ltac:(discriminate)) as [Hin' Hmax].
  set (ws := reduce_from_head _ (a :: starts) _) in *.
  set (we := reduce_from_head _ (b :: ends) _) in *.
  rewrite <- Estarts in Hin. rewrite <- Eends in Hin'.
  apply In_nonEmptyStarts in Hin. destruct Hin as (s1 & Hs1 & Hws & _).
  apply In_nonEmptyEnds in Hin'. destruct Hin' as (s2 & Hs2 & Hwe & _).
  destruct (Hvalid _ Hs1) as [V1 _]. destruct (Hvalid _ Hs2) as [_ V2].
  rewrite Hws in V1. rewrite Hwe in V2.
  destruct (civil ws) as [cws|] eqn:Hcws; [|congruence].
  destruct (civil we) as [cwe|] eqn:Hcwe; [|congruence].
  split; [discriminate|]. split; [discriminate|].
  pose proof (proj1 (proj2 (iso_order _ _ _ _ Hcws Hcs)) (Hmin _ Hs)) as Hstart.
  pose proof (proj1 (proj2 (iso_order _ _ _ _ Hce Hcwe)) (Hmax _ He)) as Hend.
  rewrite (tripDaysInclusive_days _ _ _ _ Hcs Hce),
    (tripDaysInclusive_days _ _ _ _ Hcws Hcwe).
  destruct cs as [[ys ms] ds], ce as [[ye me] de],
    cws as [[y1 m1] d1], cwe as [[y2 m2] d2].
  apply civil_shape in Hcs, Hce, Hcws, Hcwe.
  pose proof (MakeDay_le _ _ _ _ _ _ (proj2 Hcws) (proj2 Hcs) Hstart).
  pose proof (MakeDay_le _ _ _ _ _ _ (proj2 Hce) (proj2 Hcwe) Hend).
  lia.
Qed.

Lemma window_covers_segments_witness :
  tripDaysInclusive "2024-03-05" "2024-03-07"
  <= tripDaysInclusive
       (startISO (computeOverallTripWindow
          [mkSegment "2024-03-05" "2024-03-07" NaN NaN false false false;
           mkSegment "2024-03-01" "2024-03-03" NaN NaN false false false]))
       (endISO (computeOverallTripWindow
          [mkSegment "2024-03-05" "2024-03-07" NaN NaN false false false;
           mkSegment "2024-03-01" "2024-03-03" NaN NaN false false false])).
Proof.
  apply (window_covers_segments
           [mkSegment "2024-03-05" "2024-03-07" NaN NaN false false false;
            mkSegment "2024-03-01" "2024-03-03" NaN NaN false false false]
           (mkSegment "2024-03-05" "2024-03-07" NaN NaN false false false)).
  - intros s [<-|[<-|[]]]; split; discriminate.
  - left. reflexivity.
Defined.

(** ** Packed marks *)

Lemma filter_length_perm {A : Type} (p : A -> bool) (l l' : list A) :
  Permutation l l' -> length (List.filter p l) = length (List.filter p l').
Proof.
  induction 1 as [|x l l' _ IH|x y l|l l' l'' _ IH1 _ IH2]; simpl.
  - reflexivity.
  - destruct (p x); simpl; rewrite IH; reflexivity.
  - destruct (p x), (p y); reflexivity.
  - rewrite IH1. exact IH2.
Qed.

Lemma packedCount_insert_fresh (m : gmap string bool) (id : string) (b : bool) :
  m !! id = None ->
  packedCount (<[id := b]> m) = ((if b then 1 else 0) + packedCount m)%nat.
Proof.
  intros Hid. unfold packedCount.
  rewrite (filter_length_perm _ _ _ (Permutation_map snd (map_to_list_insert m id b Hid))).
  simpl. destruct b; reflexivity.
Qed.

(** X29: marking an item changes the packed count by one, up when the item
    had no truthy own mark and down when it had one, except for an id that
    is a property name of [Object.prototype] and has no own mark yet: its
    first marking stores [false] and leaves the count as it is. *)
Theorem toggleChecked_packedCount (id : string) (app : AppState) :
  match checkedState app !! id with
  | Some true =>
      S (packedCount (checkedState (toggleChecked id app)))
      = packedCount (checkedState app)
  | Some false =>
      packedCount (checkedState (toggleChecked id app))
      = S (packedCount (checkedState app))
  | None =>
      if inheritsProperty id
      then packedCount (checkedState (toggleChecked id app))
           = packedCount (checkedState app)
      else packedCount (checkedState (toggleChecked id app))
           = S (packedCount (checkedState app))
  end.
Proof.
  cbn [checkedState toggleChecked]. unfold isChecked, getProperty.
  destruct (checkedState app !! id) as [old|] eqn:Hid.
  - set (m := checkedState app) in *.
    pose proof (packedCount_insert_fresh (delete id m) id (negb old)
                  (lookup_delete_eq m id)) as Hnew.
    pose proof (packedCount_insert_fresh (delete id m) id old
                  (lookup_delete_eq m id)) as Hold.
    rewrite insert_delete_eq in Hnew.
    rewrite (insert_delete_id m id old Hid) in Hold.
    rewrite Hnew, Hold. destruct old; reflexivity.
  - rewrite packedCount_insert_fresh by exact Hid.
    destruct (inheritsProperty id); reflexivity.
Qed.
